(** * ephemeris: run_data_managers

    A shallow embedding of [src/ephemeris/run_data_managers.py]: the
    completion poller [wait], the idempotency check
    ([data_table_entry_exists], [get_name_from_inputs],
    [get_value_from_inputs], [input_entries_exist_in_data_tables]),
    item-list resolution [parse_items] and the orchestrator [run_dm].

    Python code that talks to the Galaxy server is written in a state and
    exception monad over an abstract server state; every call that leaves
    the process (API request, [time.sleep], [log.*]) is recorded in a
    trace, in program order. *)

From Stdlib Require Import String Ascii ZArith List Bool Lia.
From stdpp Require Import base option list gmap strings pretty.

Set Warnings "-register-all".

Local Open Scope string_scope.
Local Open Scope list_scope.

(** ** Python values and exceptions *)

(** Values of a loaded YAML document (floats are not used by the
    configuration and are left out). *)
Inductive pyval : Type :=
| PNone
| PBool (b : bool)
| PInt (z : Z)
| PStr (s : string)
| PList (l : list pyval)
| PDict (kvs : list (string * pyval)).

(** [bool(v)] *)
Definition py_bool (v : pyval) : bool :=
  match v with
  | PNone => false
  | PBool b => b
  | PInt z => negb (z =? 0)%Z
  | PStr s => negb (String.eqb s "")
  | PList l => match l with [] => false | _ :: _ => true end
  | PDict kvs => match kvs with [] => false | _ :: _ => true end
  end.

(** The double quote character (code 34). *)
Definition dquote : ascii := ascii_of_nat 34.
Definition quoted (s : string) : string :=
  String dquote s +:+ String dquote "".

Inductive exn : Type :=
| UnboundLocalError (var : string)
| IndexError (msg : string)
| ValueError (msg : string)
| TypeError (msg : string)
| Exception (msg : string)
| RemoteError (msg : string).

Definition is_IndexError (e : exn) : bool :=
  match e with IndexError _ => true | _ => false end.

(** [except Exception] catches every exception modelled here. *)
Definition is_Exception (e : exn) : bool := true.

(** Outcome of running a piece of the program: a value, a raised
    exception, a loop that did not end within the fuel given, or an input
    outside the modelled fragment of an external library. *)
Inductive res (A : Type) : Type :=
| Val (a : A)
| Raise (e : exn)
| OutOfFuel
| Unmodelled (what : string).
Arguments Val {A} a.
Arguments Raise {A} e.
Arguments OutOfFuel {A}.
Arguments Unmodelled {A} what.

Definition res_bind {A B} (r : res A) (k : A -> res B) : res B :=
  match r with
  | Val a => k a
  | Raise e => Raise e
  | OutOfFuel => OutOfFuel
  | Unmodelled w => Unmodelled w
  end.

(** ** Data exchanged with the Galaxy server *)

(** One entry of [job['outputs']]: the dataset id and its history id. *)
Record output := { out_id : string; out_hid : Z }.

(** The dict returned by [gi.tools.run_tool]; only ['outputs'] is read. *)
Record job := { outputs : list output }.

Global Instance output_eq_dec : EqDecision output.
Proof. solve_decision. Defined.
Global Instance job_eq_dec : EqDecision job.
Proof. solve_decision. Defined.

(** The dict returned by [show_data_table]. *)
Record data_table := { columns : list string; fields : list (list string) }.

Inductive loglevel := DEBUG | INFO | ERROR.

Inductive logmsg :=
| JobFinished (hid : Z) (state : string)
| JobStillRunning (hid : Z)
| NumberOfDbkeys (n : nat)
| AlreadyRun (dm_id : string) (inputs : gmap string string)
| Dispatched (hid : Z) (dm_id : string) (inputs : gmap string string)
| NotAllSuccessfulIgnoring.

(** What the process does to the outside, in program order. *)
Inductive event :=
| ShowDataset (id : string)
| ShowDataTable (name : string)
| RunTool (tool_id : string) (inputs : gmap string string)
| GetGenomes
| Sleep (seconds : Z)
| Log (level : loglevel) (msg : logmsg).

(** The [GalaxyInstance] object [gi] (and the [ToolDataClient] built on
    it): each method answers from the server state [W] and may change it;
    [gi_sleep] is what the server does while the process sleeps. *)
Record GalaxyInstance (W : Type) := {
  gi_show_dataset : string -> W -> (exn + string) * W;
  gi_show_data_table : string -> W -> (exn + data_table) * W;
  gi_run_tool : string -> gmap string string -> W -> (exn + job) * W;
  gi_get_genomes : W -> (exn + list string) * W;
  gi_sleep : Z -> W -> W
}.
Arguments gi_show_dataset {W} _ _ _.
Arguments gi_show_data_table {W} _ _ _.
Arguments gi_run_tool {W} _ _ _ _.
Arguments gi_get_genomes {W} _ _.
Arguments gi_sleep {W} _ _ _.

(** ** The monad of the program *)

Record machine (W : Type) := { world : W; trace : list event }.
Arguments world {W} _.
Arguments trace {W} _.
Arguments Build_machine {W} _ _.

Definition M (W A : Type) : Type := machine W -> res A * machine W.

Definition ret {W A} (a : A) : M W A := fun m => (Val a, m).

Definition bind {W A B} (c : M W A) (k : A -> M W B) : M W B :=
  fun m =>
    match c m with
    | (Val a, m') => k a m'
    | (Raise e, m') => (Raise e, m')
    | (OutOfFuel, m') => (OutOfFuel, m')
    | (Unmodelled w, m') => (Unmodelled w, m')
    end.

Definition raise {W A} (e : exn) : M W A := fun m => (Raise e, m).

Definition out_of_fuel {W A} : M W A := fun m => (OutOfFuel, m).

Definition lift {W A} (r : res A) : M W A := fun m => (r, m).

(** [try: c except <handles>: h] *)
Definition try_except {W A} (c : M W A) (handles : exn -> bool)
    (h : exn -> M W A) : M W A :=
  fun m =>
    match c m with
    | (Raise e, m') => if handles e then h e m' else (Raise e, m')
    | other => other
    end.

Definition emit {W} (e : event) : M W unit :=
  fun m => (Val tt, {| world := world m; trace := trace m ++ [e] |}).

(** A request to the server: recorded, then answered by [gi]. *)
Definition request {W A} (e : event) (f : W -> (exn + A) * W) : M W A :=
  fun m =>
    let '(r, w') := f (world m) in
    (match r with inl x => Raise x | inr a => Val a end,
     {| world := w'; trace := trace m ++ [e] |}).

Declare Scope py_scope.
Delimit Scope py_scope with py.
Notation "'do' x <- c ; k" := (bind c (fun x => k))
  (at level 10, x name, c at level 100, k at level 200,
   format "'[v' 'do'  x  <-  c ; '/' k ']'") : py_scope.
Notation "'do' ' p <- c ; k" := (bind c (fun x => let 'p := x in k))
  (at level 10, p pattern, c at level 100, k at level 200,
   format "'[v' 'do'  ' p  <-  c ; '/' k ']'") : py_scope.
Notation "'run' c ; k" := (bind c (fun _ => k))
  (at level 10, c at level 100, k at level 200,
   format "'[v' 'run'  c ; '/' k ']'") : py_scope.
Local Open Scope py_scope.

Definition log {W} (level : loglevel) (msg : logmsg) : M W unit :=
  emit (Log level msg).

(** ** The template engine

    [jinja2.Template(source).render(key=value, ...)] as the program uses it:
    [Template] is built with the library's defaults (no [undefined=]
    argument, so names missing from the context are the default
    [Undefined], which prints as the empty string; no autoescape).  The
    model covers the templates made of literal text and print statements
    of one plain name, [{{ name }}]; block statements, comments, other
    expressions, names the library may resolve itself ([library_names],
    among them [self], which prints as the template reference) and
    sources with line breaks are [Unmodelled]. *)

Inductive segment := Data (s : string) | Output (name : string).

Definition in_range (lo hi : nat) (c : ascii) : bool :=
  (lo <=? nat_of_ascii c)%nat && (nat_of_ascii c <=? hi)%nat.

Definition is_letter (c : ascii) : bool :=
  in_range 65 90 c || in_range 97 122 c || Ascii.eqb c "_".

Definition is_digit (c : ascii) : bool := in_range 48 57 c.

Definition is_blank (c : ascii) : bool :=
  Ascii.eqb c " " || Ascii.eqb c (ascii_of_nat 9).

Definition is_line_break (c : ascii) : bool :=
  Ascii.eqb c (ascii_of_nat 10) || Ascii.eqb c (ascii_of_nat 13).

Fixpoint lstrip_if (p : ascii -> bool) (s : string) : string :=
  match s with
  | String a r => if p a then lstrip_if p r else s
  | EmptyString => EmptyString
  end.

Definition rev_string (s : string) : string :=
  string_of_list_ascii (rev (list_ascii_of_string s)).

Definition strip_if (p : ascii -> bool) (s : string) : string :=
  rev_string (lstrip_if p (rev_string (lstrip_if p s))).

(** [s.strip(chars)] for a single character. *)
Definition py_strip (c : ascii) (s : string) : string :=
  strip_if (Ascii.eqb c) s.

Definition is_identifier (s : string) : bool :=
  match s with
  | String a r => is_letter a && forallb (fun c => is_letter c || is_digit c) (list_ascii_of_string r)
  | EmptyString => false
  end.

(** Names the model leaves out because the library, not the context,
    may decide what they stand for: its literals and operators, its
    global functions, the template reference [self], and the names it
    binds itself inside loops, macros, blocks and translations. *)
Definition library_names : list string :=
  ["true"; "false"; "none"; "True"; "False"; "None"; "and"; "or"; "not";
   "in"; "is"; "if"; "else"; "range"; "dict"; "lipsum"; "cycler";
   "joiner"; "namespace"; "self"; "super"; "loop"; "caller"; "varargs";
   "kwargs"; "_"].

Definition plain_name (expr : string) : option string :=
  let x := strip_if is_blank expr in
  if is_identifier x && negb (existsb (String.eqb x) library_names)
  then Some x else None.

Definition snoc_char (s : string) (c : ascii) : string := s +:+ String c "".

Fixpoint lex (in_print : bool) (acc : string) (src : string)
    : res (list segment) :=
  match src with
  | EmptyString =>
      if in_print then Unmodelled "print statement left open"
      else Val [Data acc]
  | String c rest =>
      match rest with
      | EmptyString => lex in_print (snoc_char acc c) rest
      | String c2 rest' =>
          if in_print then
            if Ascii.eqb c "}" && Ascii.eqb c2 "}" then
              match plain_name acc with
              | Some x =>
                  res_bind (lex false "" rest') (fun segs => Val (Output x :: segs))
              | None => Unmodelled "expression other than a plain name"
              end
            else lex true (snoc_char acc c) rest
          else
            if Ascii.eqb c "{" && Ascii.eqb c2 "{" then
              res_bind (lex true "" rest') (fun segs => Val (Data acc :: segs))
            else if Ascii.eqb c "{" && (Ascii.eqb c2 "%" || Ascii.eqb c2 "#") then
              Unmodelled "block statement or comment"
            else lex false (snoc_char acc c) rest
      end
  end.

(** [Template(source)] *)
Definition Template (source : string) : res (list segment) :=
  if existsb is_line_break (list_ascii_of_string source)
  then Unmodelled "line break in template"
  else lex false "" source.

(** [str(v)], as the print statement applies it to the value found. *)
Definition py_str (v : pyval) : res string :=
  match v with
  | PNone => Val "None"
  | PBool true => Val "True"
  | PBool false => Val "False"
  | PInt z => Val (pretty z)
  | PStr s => Val s
  | PList _ => Unmodelled "str of a list"
  | PDict _ => Unmodelled "str of a dict"
  end.

(** [template.render(key=value, ...)] *)
Fixpoint render (template : list segment) (context : gmap string pyval)
    : res string :=
  match template with
  | [] => Val ""
  | Data s :: rest =>
      res_bind (render rest context) (fun t => Val (s +:+ t))
  | Output x :: rest =>
      res_bind
        (match context !! x with
         | Some v => py_str v
         | None => Val ""
         end)
        (fun s => res_bind (render rest context) (fun t => Val (s +:+ t)))
  end.

(** [Template(source).render(key=value, ...)], the form of both call
    sites. *)
Definition resolve (source : string) (context : gmap string pyval)
    : res string :=
  res_bind (Template source) (fun template => render template context).

(** ** Item-list resolution *)

(** [json.dumps] and [json.loads] of the standard library. *)
Record Json := {
  json_dumps : pyval -> string;
  json_loads : string -> exn + pyval
}.

Definition of_sum {A} (r : exn + A) : res A :=
  match r with inl e => Raise e | inr a => Val a end.

Definition parse_items (json : Json) (items genomes : pyval) : res pyval :=
  if py_bool genomes then
    res_bind (resolve (json_dumps json items)
                {[ "genomes" := PStr (json_dumps json genomes) ]})
      (fun rendered_items =>
         let rendered_items := py_strip dquote rendered_items in
         of_sum (json_loads json rendered_items))
  else Val items.

(** [for item in items] *)
Definition py_iter (v : pyval) : res (list pyval) :=
  match v with
  | PList l => Val l
  | PStr s => Val (map (fun c => PStr (String c "")) (list_ascii_of_string s))
  | PDict kvs => Val (map (fun kv => PStr (fst kv)) kvs)
  | PNone => Raise (TypeError "'NoneType' object is not iterable")
  | PBool _ => Raise (TypeError "'bool' object is not iterable")
  | PInt _ => Raise (TypeError "'int' object is not iterable")
  end.

(** ** The idempotency check *)

(** What [get_name_from_inputs] and [get_value_from_inputs] return: the
    string found in the dict, or [False]. *)
Inductive candidate := CFalse | CStr (s : string).

(** Truth value of a candidate in [if value_entry:]. *)
Definition truthy (c : candidate) : bool :=
  match c with
  | CFalse => false
  | CStr s => negb (String.eqb s "")
  end.

(** [for key in possible_keys: if key in input_dict: return
    input_dict.get(key)], then [return False]. *)
Fixpoint first_present (possible_keys : list string)
    (input_dict : gmap string string) : candidate :=
  match possible_keys with
  | [] => CFalse
  | key :: rest =>
      match input_dict !! key with
      | Some v => CStr v
      | None => first_present rest input_dict
      end
  end.

Definition name_keys : list string := ["name"; "sequence_name"].
Definition value_keys : list string := ["value"; "sequence_id"; "dbkey"].

Definition get_name_from_inputs (input_dict : gmap string string) : candidate :=
  first_present name_keys input_dict.

Definition get_value_from_inputs (input_dict : gmap string string) : candidate :=
  first_present value_keys input_dict.

(** [l.index(x)]: position of the first [x], [ValueError] when there is
    none.  The message shows [x] between single quotes, which is how
    Python writes a string without quotes or backslashes, such as the
    column names value and name. *)
Fixpoint py_index (l : list string) (x : string) : res nat :=
  match l with
  | [] => Raise (ValueError ("'" +:+ x +:+ "' is not in list"))
  | y :: rest =>
      if String.eqb y x then Val 0
      else res_bind (py_index rest x) (fun i => Val (S i))
  end.

(** [l[i]] *)
Definition py_getitem {A} (l : list A) (i : nat) : res A :=
  match l !! i with
  | Some a => Val a
  | None => Raise (IndexError "list index out of range")
  end.

(** The loop over [data_table_content.get('fields')]. *)
Fixpoint scan_fields (rows : list (list string)) (column_index : nat)
    (entry : string) : res bool :=
  match rows with
  | [] => Val false
  | field :: rest =>
      res_bind (py_getitem field column_index) (fun cell =>
        if String.eqb cell entry then Val true
        else scan_fields rest column_index entry)
  end.

(** ** Jobs and configuration *)

(** [job['outputs'][0]] *)
Definition first_output (j : job) : res output := py_getitem (outputs j) 0.

(** [l.remove(x)]: drops the first element equal to [x]. *)
Fixpoint py_remove (x : job) (l : list job) : res (list job) :=
  match l with
  | [] => Raise (ValueError "list.remove(x): x not in list")
  | y :: rest =>
      if decide (y = x) then Val rest
      else res_bind (py_remove x rest) (fun r => Val (y :: r))
  end.

(** [for finished_job in finished_jobs: job_list.remove(finished_job)] *)
Fixpoint remove_each (finished_jobs job_list : list job) : res (list job) :=
  match finished_jobs with
  | [] => Val job_list
  | finished_job :: rest =>
      res_bind (py_remove finished_job job_list) (remove_each rest)
  end.

(** [bool(job_list)] *)
Definition nonempty {A} (l : list A) : bool :=
  match l with [] => false | _ :: _ => true end.

(** The command-line options [run_dm] reads after the connection is
    made. *)
Record args := { overwrite : bool; ignore_errors : bool }.

(** One entry of [data_managers] in the YAML file.  [id] and [params]
    are read with [dm[...]], [items] and [data_table_reload] with
    [dm.get]; every entry of [params] is a dict, given by its items in
    order. *)
Record data_manager := {
  dm_id : string;
  dm_params : list (list (string * string));
  dm_items : option pyval;
  dm_data_table_reload : option (list string)
}.

(** The loaded YAML file. *)
Record config := {
  conf_genomes : option pyval;
  conf_data_managers : option (list data_manager)
}.

(** The three accumulators of [run_dm]. *)
Record totals := {
  number_skipped_jobs : nat;
  all_failed_jobs : list job;
  all_finished_jobs : list job
}.

(** The dict [run_dm] returns. *)
Record job_summary := {
  finished_jobs : nat;
  failed_jobs : nat;
  skipped_jobs : nat
}.

(** The loop over [params] that fills [inputs]. *)
Fixpoint build_inputs (params : list (list (string * string))) (item : pyval)
    (inputs : gmap string string) : res (gmap string string) :=
  match params with
  | [] => Val inputs
  | param :: rest =>
      res_bind (py_getitem param 0) (fun kv =>
      let '(key, value) := kv in
      res_bind (resolve value {[ "item" := item ]}) (fun value =>
      build_inputs rest item (<[key := value]> inputs)))
  end.

Definition abort_message : string := "Not all jobs successfull! aborting...".

Section Program.

Context {W : Type} (gi : GalaxyInstance W) (json : Json).

Definition table_missing (data_table_name : string) : exn :=
  Exception ("Table " +:+ quoted data_table_name +:+ " does not exist").

Definition column_missing (column data_table_name : string) : exn :=
  IndexError ("Column " +:+ quoted column +:+ " does not exist in " +:+ data_table_name).

Definition data_table_entry_exists (data_table_name entry column : string)
    : M W bool :=
  do data_table_content <-
    try_except
      (request (ShowDataTable data_table_name)
         (gi_show_data_table gi data_table_name))
      is_Exception
      (fun _ => raise (table_missing data_table_name));
  do column_index <-
    try_except
      (lift (py_index (columns data_table_content) column))
      is_IndexError
      (fun _ => raise (column_missing column data_table_name));
  lift (scan_fields (fields data_table_content) column_index entry).

(** [if entry: if not data_table_entry_exists(...): return False]; the
    result is whether the loop goes on. *)
Definition entry_passes (data_table : string) (entry : candidate)
    (column : string) : M W bool :=
  match entry with
  | CFalse => ret true
  | CStr s =>
      if truthy entry then data_table_entry_exists data_table s column
      else ret true
  end.

Fixpoint check_data_tables (value_entry name_entry : candidate)
    (data_tables : list string) : M W bool :=
  match data_tables with
  | [] => ret true
  | data_table :: rest =>
      do v <- entry_passes data_table value_entry "value";
      if negb v then ret false
      else
        do n <- entry_passes data_table name_entry "name";
        if negb n then ret false
        else check_data_tables value_entry name_entry rest
  end.

Definition input_entries_exist_in_data_tables (data_tables : list string)
    (input_dict : gmap string string) : M W bool :=
  let value_entry := get_value_from_inputs input_dict in
  let name_entry := get_name_from_inputs input_dict in
  if negb (truthy value_entry) && negb (truthy name_entry) then ret false
  else check_data_tables value_entry name_entry data_tables.

(** ** The completion poller *)

(** [time.sleep(seconds)] *)
Definition sleep (seconds : Z) : M W unit :=
  fun m =>
    (Val tt, {| world := gi_sleep gi seconds (world m);
                trace := trace m ++ [Sleep seconds] |}).

(** The loop [for job in job_list] of one poll cycle. *)
Fixpoint poll_jobs (jobs finished_jobs failed_jobs : list job)
    : M W (list job * list job) :=
  match jobs with
  | [] => ret (finished_jobs, failed_jobs)
  | job :: rest =>
      do o <- lift (first_output job);
      let job_id := out_hid o in
      do state <- request (ShowDataset (out_id o)) (gi_show_dataset gi (out_id o));
      do finished_jobs <-
        (if String.eqb state "ok" then
           run log INFO (JobFinished job_id state);
           ret (finished_jobs ++ [job])
         else ret finished_jobs);
      do '(finished_jobs, failed_jobs) <-
        (if String.eqb state "error" then
           run log ERROR (JobFinished job_id state);
           ret (finished_jobs ++ [job], failed_jobs ++ [job])
         else
           run log DEBUG (JobStillRunning job_id);
           ret (finished_jobs, failed_jobs));
      poll_jobs rest finished_jobs failed_jobs
  end.

(** The [while] loop and the [return] after it.  [bound] is what the
    local names [finished_jobs] and [failed_jobs] are bound to: nothing
    before the first pass of the loop body. *)
Fixpoint wait_loop (fuel : nat) (bound : option (list job * list job))
    (job_list : list job) : M W (list job * list job) :=
  if nonempty job_list then
    match fuel with
    | O => out_of_fuel
    | S fuel' =>
        do '(finished_jobs, failed_jobs) <- poll_jobs job_list [] [];
        do job_list <- lift (remove_each finished_jobs job_list);
        run (if nonempty job_list then sleep 30 else ret tt);
        wait_loop fuel' (Some (finished_jobs, failed_jobs)) job_list
    end
  else
    match bound with
    | None => raise (UnboundLocalError "finished_jobs")
    | Some r => ret r
    end.

Definition wait (fuel : nat) (job_list : list job) : M W (list job * list job) :=
  wait_loop fuel None job_list.

(** ** The orchestrator *)

(** Lines 183 to 185: run the data manager job. *)
Definition dispatch (dm : data_manager) (inputs : gmap string string)
    (job_list : list job) (skipped : nat) : M W (list job * nat) :=
  do job <- request (RunTool (dm_id dm) inputs) (gi_run_tool gi (dm_id dm) inputs);
  do o <- lift (first_output job);
  run log INFO (Dispatched (out_hid o) (dm_id dm) inputs);
  ret (job_list ++ [job], skipped).

(** Lines 176 to 185: skip or dispatch one item, given its [inputs]. *)
Definition skip_or_dispatch (a : args) (dm : data_manager)
    (inputs : gmap string string) (job_list : list job) (skipped : nat)
    : M W (list job * nat) :=
  let data_tables := default [] (dm_data_table_reload dm) in
  do present <- input_entries_exist_in_data_tables data_tables inputs;
  if present && negb (overwrite a) then
    run log INFO (AlreadyRun (dm_id dm) inputs);
    ret (job_list, S skipped)
  else dispatch dm inputs job_list skipped.

(** The loop [for item in items]. *)
Fixpoint items_loop (a : args) (dm : data_manager) (items : list pyval)
    (job_list : list job) (skipped : nat) : M W (list job * nat) :=
  match items with
  | [] => ret (job_list, skipped)
  | item :: rest =>
      do inputs <- lift (build_inputs (dm_params dm) item ∅);
      do '(job_list, skipped) <- skip_or_dispatch a dm inputs job_list skipped;
      items_loop a dm rest job_list skipped
  end.

(** Lines 187 to 192: what a step does with the failed jobs [wait]
    reports. *)
Definition failure_policy (a : args) (failed_jobs : list job) : M W unit :=
  if nonempty failed_jobs then
    if negb (ignore_errors a) then raise (Exception abort_message)
    else log ERROR NotAllSuccessfulIgnoring
  else ret tt.

(** One pass of the loop [for dm in conf.get('data_managers')]. *)
Definition run_step (fuel : nat) (a : args) (genomes : pyval)
    (dm : data_manager) (t : totals) : M W totals :=
  do items <- lift (parse_items json (default (PList [PStr ""]) (dm_items dm)) genomes);
  do items <- lift (py_iter items);
  do '(job_list, skipped) <- items_loop a dm items [] (number_skipped_jobs t);
  do '(finished_jobs, failed_jobs) <- wait fuel job_list;
  run failure_policy a failed_jobs;
  ret {| number_skipped_jobs := skipped;
         all_failed_jobs := all_failed_jobs t ++ failed_jobs;
         all_finished_jobs := all_finished_jobs t ++ finished_jobs |}.

Fixpoint steps_loop (fuel : nat) (a : args) (genomes : pyval)
    (dms : list data_manager) (t : totals) : M W totals :=
  match dms with
  | [] => ret t
  | dm :: rest =>
      do t <- run_step fuel a genomes dm t;
      steps_loop fuel a genomes rest t
  end.

Definition summary_of (t : totals) : job_summary :=
  {| finished_jobs := length (all_finished_jobs t);
     failed_jobs := length (all_failed_jobs t);
     skipped_jobs := number_skipped_jobs t |}.

(** Lines 150 and 151. *)
Definition connect : M W unit :=
  do genomes <- request GetGenomes (gi_get_genomes gi);
  log INFO (NumberOfDbkeys (length genomes)).

Definition no_totals : totals :=
  {| number_skipped_jobs := 0; all_failed_jobs := []; all_finished_jobs := [] |}.

(** [conf.get('genomes', '')] *)
Definition genomes_of (conf : config) : pyval :=
  default (PStr "") (conf_genomes conf).

(** [run_dm(args)], once [gi] is connected and the YAML file is loaded
    as [conf].  [fuel] bounds the poll cycles of each call of [wait]. *)
Definition run_dm (fuel : nat) (a : args) (conf : config) : M W job_summary :=
  run connect;
  match conf_data_managers conf with
  | None => raise (TypeError "'NoneType' object is not iterable")
  | Some dms =>
      do t <- steps_loop fuel a (genomes_of conf) dms no_totals;
      ret (summary_of t)
  end.

End Program.


(** ** A scripted server

    A Galaxy server whose answers are fixed in advance: the state of a
    dataset depends on how many sleeps have passed, the data tables do
    not change, and the n-th dispatched job gets dataset d<n> with
    history id n + 1.  The server state is the pair of both counters. *)

Definition dataset_name (n : nat) : string := "d" +:+ pretty n.

Definition job_number (n : nat) : job :=
  {| outputs := [ {| out_id := dataset_name n; out_hid := Z.of_nat (S n) |} ] |}.

Definition scripted (states : nat -> string -> string)
    (tables : string -> option data_table) : GalaxyInstance (nat * nat) :=
  {| gi_show_dataset := fun id w => (inr (states (fst w) id), w);
     gi_show_data_table := fun name w =>
       (match tables name with
        | Some t => inr t
        | None => inl (RemoteError "404 Not Found")
        end, w);
     gi_run_tool := fun _ _ w => (inr (job_number (snd w)), (fst w, S (snd w)));
     gi_get_genomes := fun w => (inr [], w);
     gi_sleep := fun _ w => (S (fst w), snd w) |}.

Definition start : machine (nat * nat) := {| world := (0, 0)%nat; trace := [] |}.

(** The runs below have no [genomes] key, so neither function of the
    JSON library is reached. *)
Definition json_unused : Json :=
  {| json_dumps := fun _ => "";
     json_loads := fun _ => inl (ValueError "No JSON object could be decoded") |}.

(** Every dataset in one state, at all times. *)
Definition always (state : string) : nat -> string -> string :=
  fun _ _ => state.

(** Datasets d0, d1, d2 are running, running, ok in the first poll
    cycle and ok, error, ok from the second on. *)
Definition polling_states (cycle : nat) (id : string) : string :=
  match cycle with
  | O => if String.eqb id "d2" then "ok" else "running"
  | S _ => if String.eqb id "d1" then "error" else "ok"
  end.

(** Dataset d0 is ok at once, the others run during the first poll cycle
    and are ok from the second on. *)
Definition late_states (cycle : nat) (id : string) : string :=
  match cycle with
  | O => if String.eqb id "d0" then "ok" else "running"
  | S _ => "ok"
  end.

(** Dataset d0 is in error at once; d1 runs during the first poll cycle
    and is ok from the second on; every other dataset is ok. *)
Definition early_error_states (cycle : nat) (id : string) : string :=
  if String.eqb id "d0" then "error"
  else match cycle with
       | O => if String.eqb id "d1" then "running" else "ok"
       | S _ => "ok"
       end.

Definition no_tables : string -> option data_table := fun _ => None.

(** The data table [all_fasta] with the single entry hg19. *)
Definition all_fasta : data_table :=
  {| columns := ["value"; "dbkey"; "name"; "path"];
     fields := [["hg19"; "hg19"; "Human (hg19)"; "/data/hg19.fa"]] |}.

Definition only_all_fasta : string -> option data_table :=
  fun name => if String.eqb name "all_fasta" then Some all_fasta else None.

(** A table that lacks the column [name]. *)
Definition nameless : data_table :=
  {| columns := ["value"; "path"]; fields := [["hg38"; "/data/hg38.fa"]] |}.

(** ** Example runs *)

Definition example_args : args := {| overwrite := false; ignore_errors := false |}.
Definition ignoring_errors : args := {| overwrite := false; ignore_errors := true |}.
Definition overwriting : args := {| overwrite := true; ignore_errors := false |}.

(** A step whose parameter dbkey is the item, checked against the table
    [all_fasta]. *)
Definition step (name : string) (items : list string) : data_manager :=
  {| dm_id := name;
     dm_params := [[("dbkey", "{{ item }}")]];
     dm_items := Some (PList (map PStr items));
     dm_data_table_reload := Some ["all_fasta"] |}.

Definition example_dm : data_manager :=
  step "data_manager_fetch_genome_all_fasta_dbkey" ["hg19"].

(** A step checked against a table the server does not have. *)
Definition unknown_table_step : data_manager :=
  {| dm_id := "fetch";
     dm_params := [[("dbkey", "{{ item }}")]];
     dm_items := Some (PList [PStr "hg38"]);
     dm_data_table_reload := Some ["no_such_table"] |}.

(** A step whose parameter name is the item. *)
Definition name_step : data_manager :=
  {| dm_id := "fetch";
     dm_params := [[("name", "{{ item }}")]];
     dm_items := Some (PList [PStr "Human"]);
     dm_data_table_reload := Some ["all_fasta"] |}.

(** A configuration file with these steps and no [genomes] key. *)
Definition steps (dms : list data_manager) : config :=
  {| conf_genomes := None; conf_data_managers := Some dms |}.

(** Three handles, of datasets d0, d1, d2. *)
Definition handles : list job := [job_number 0; job_number 1; job_number 2].

(** ** Reading a trace *)

(** The datasets asked for and the sleeps, in order (one run of
    [ShowDataset] per poll cycle). *)
Definition polls (t : list event) : list event :=
  List.filter
    (fun e => match e with ShowDataset _ | Sleep _ => true | _ => false end) t.

(** The data managers of the jobs dispatched, in order. *)
Fixpoint dispatched (t : list event) : list string :=
  match t with
  | [] => []
  | RunTool tool_id _ :: rest => tool_id :: dispatched rest
  | _ :: rest => dispatched rest
  end.

(** The data tables asked for, in order. *)
Fixpoint table_queries (t : list event) : list string :=
  match t with
  | [] => []
  | ShowDataTable name :: rest => name :: table_queries rest
  | _ :: rest => table_queries rest
  end.

(** ** Vocabulary of the properties *)

(** Every event a computation adds to the trace satisfies [P], and it
    takes no event back. *)
Definition emits {W A : Type} (P : event -> Prop) (c : M W A) : Prop :=
  forall m, exists es, trace (snd (c m)) = trace m ++ es /\ Forall P es.

(** The lengths of the sleeps of a trace, in order. *)
Fixpoint sleeps (t : list event) : list Z :=
  match t with
  | [] => []
  | Sleep seconds :: rest => seconds :: sleeps rest
  | _ :: rest => sleeps rest
  end.

(** A job whose ['outputs'] list is not empty. *)
Definition has_output (j : job) : Prop := outputs j <> [].

(** The dataset [wait] asks for when it polls a job. *)
Definition polled_dataset (j : job) : option string :=
  match outputs j with
  | o :: _ => Some (out_id o)
  | [] => None
  end.

(** What [wait] may do to the outside for the jobs [job_list]: ask for
    the dataset of one of them, sleep 30 seconds, or log. *)
Definition wait_event (job_list : list job) (e : event) : Prop :=
  match e with
  | ShowDataset id => exists j, In j job_list /\ polled_dataset j = Some id
  | Sleep seconds => seconds = 30%Z
  | Log _ _ => True
  | _ => False
  end.

(** What the idempotency check may do to the outside: ask for one of
    the data tables it was given. *)
Definition check_event (data_tables : list string) (e : event) : Prop :=
  match e with
  | ShowDataTable name => In name data_tables
  | _ => False
  end.

(** A server whose every answer about a dataset is a state in [P]. *)
Definition answers {W : Type} (gi : GalaxyInstance W) (P : string -> Prop)
    : Prop :=
  forall id w, exists state w',
    gi_show_dataset gi id w = (inr state, w') /\ P state.

(** The states that take a job off the job list, and the others. *)
Definition terminal (state : string) : Prop := state = "ok" \/ state = "error".
Definition pending (state : string) : Prop := state <> "ok" /\ state <> "error".

(** The first position of [column] among the columns of a table. *)
Definition first_position (l : list string) (x : string) (i : nat) : Prop :=
  l !! i = Some x /\ forall j, (j < i)%nat -> l !! j <> Some x.

(** Some row of the table has [entry] in the cell at position [i]. *)
Definition some_row_has (t : data_table) (i : nat) (entry : string) : Prop :=
  exists row, In row (fields t) /\ row !! i = Some entry.

(** Every row of the table has a cell at position [i]. *)
Definition rows_reach (t : data_table) (i : nat) : Prop :=
  Forall (fun row : list string => (i < length row)%nat) (fields t).

(** The table has [entry] in its column [column] (the first of that
    name). *)
Definition column_has (t : data_table) (column entry : string) : Prop :=
  exists i, first_position (columns t) column i /\ some_row_has t i entry.

(** A candidate that counts (a non-empty string) is in the column. *)
Definition candidate_in (t : data_table) (column : string) (c : candidate)
    : Prop :=
  match c with
  | CStr s => truthy c = true -> column_has t column s
  | CFalse => True
  end.

(** A table with the columns value and name whose rows are as long as
    its list of columns. *)
Definition well_formed (t : data_table) : Prop :=
  In "value" (columns t) /\ In "name" (columns t)
  /\ Forall (fun row : list string => (length (columns t) <= length row)%nat)
       (fields t).

(** A server that has the data tables [tables] and does not change when
    asked for one. *)
Definition serves {W : Type} (gi : GalaxyInstance W)
    (tables : string -> option data_table) : Prop :=
  forall name t w, tables name = Some t ->
    gi_show_data_table gi name w = (inr t, w).

(** Text without an opening brace and without a line break: no part of
    it is template syntax. *)
Definition plain (s : string) : bool :=
  forallb (fun c => negb (Ascii.eqb c "{") && negb (is_line_break c))
    (list_ascii_of_string s).

(** What the loop over [params] does when nothing is rendered: each
    param gives its first key and value, later ones overwrite. *)
Definition update_with (inputs : gmap string string)
    (param : list (string * string)) : gmap string string :=
  match param with
  | (key, value) :: _ => <[key := value]> inputs
  | [] => inputs
  end.

(** The scripted server once [run_dm] has asked for the genomes. *)
Definition connected : machine (nat * nat) :=
  {| world := (0, 0)%nat; trace := [GetGenomes; Log INFO (NumberOfDbkeys 0)] |}.

(** A step with an identifying parameter and no [data_table_reload]. *)
Definition tableless_step : data_manager :=
  {| dm_id := "fetch";
     dm_params := [[("dbkey", "{{ item }}")]];
     dm_items := Some (PList [PStr "hg38"]);
     dm_data_table_reload := None |}.

(** A JSON library that writes every value as the text [hg19] and reads
    every text as the list of that one item. *)
Definition json_stub : Json :=
  {| json_dumps := fun _ => "hg19";
     json_loads := fun _ => inr (PList [PStr "hg19"]) |}.

(** * Properties *)

(** ** Running a sequence of calls *)

Section Bind.

Context {W A B : Type}.

Lemma bind_val (c : M W A) (k : A -> M W B) m a m' :
  c m = (Val a, m') -> bind c k m = k a m'.
Proof. intros H. unfold bind. now rewrite H. Qed.

Lemma bind_raise (c : M W A) (k : A -> M W B) m e m' :
  c m = (Raise e, m') -> bind c k m = (Raise e, m').
Proof. intros H. unfold bind. now rewrite H. Qed.

Lemma bind_lift_val (r : res A) (k : A -> M W B) m a :
  r = Val a -> bind (lift r) k m = k a m.
Proof. intros ->. reflexivity. Qed.

Lemma bind_val_inv (c : M W A) (k : A -> M W B) m b m2 :
  bind c k m = (Val b, m2) ->
  exists a m1, c m = (Val a, m1) /\ k a m1 = (Val b, m2).
Proof.
  unfold bind. destruct (c m) as [[a| | |] m1]; intros H; try discriminate.
  now exists a, m1.
Qed.

End Bind.

(** ** Candidates of the idempotency check *)

(** The first key of the chain that the dict holds decides the
    candidate, whatever the later keys map to. *)
Lemma first_present_app (pre post : list string) (key : string)
    (input_dict : gmap string string) (v : string) :
  Forall (fun k => input_dict !! k = None) pre ->
  input_dict !! key = Some v ->
  first_present (pre ++ key :: post) input_dict = CStr v.
Proof.
  intros Hpre Hkey. induction Hpre as [|k pre Hk _ IH]; simpl.
  - now rewrite Hkey.
  - now rewrite Hk.
Qed.

Lemma first_present_none (keys : list string) (input_dict : gmap string string) :
  Forall (fun k => input_dict !! k = None) keys ->
  first_present keys input_dict = CFalse.
Proof.
  induction 1 as [|k keys Hk _ IH]; simpl; [reflexivity|].
  now rewrite Hk.
Qed.

Section Idempotency.

Context {W : Type} (gi : GalaxyInstance W).

(** A falsy candidate asks the server nothing. *)
Lemma entry_passes_falsy (data_table column : string) (entry : candidate) m :
  truthy entry = false ->
  entry_passes gi data_table entry column m = (Val true, m).
Proof.
  intros H. destruct entry as [|s]; [reflexivity|].
  unfold entry_passes. now rewrite H.
Qed.

Lemma check_data_tables_falsy_name (value_entry name_entry : candidate)
    (data_tables : list string) m :
  truthy name_entry = false ->
  check_data_tables gi value_entry name_entry data_tables m =
  check_data_tables gi value_entry CFalse data_tables m.
Proof.
  intros H. revert m. induction data_tables as [|t ts IH]; intros m; [reflexivity|].
  simpl. unfold bind.
  destruct (entry_passes gi t value_entry "value" m) as [[v| | |] m1]; try reflexivity.
  destruct v; simpl; [|reflexivity].
  rewrite (entry_passes_falsy t "name" name_entry m1 H). simpl.
  apply IH.
Qed.

Lemma check_data_tables_falsy_value (value_entry name_entry : candidate)
    (data_tables : list string) m :
  truthy value_entry = false ->
  check_data_tables gi value_entry name_entry data_tables m =
  check_data_tables gi CFalse name_entry data_tables m.
Proof.
  intros H. revert m. induction data_tables as [|t ts IH]; intros m; [reflexivity|].
  simpl. unfold bind.
  rewrite (entry_passes_falsy t "value" value_entry m H). simpl.
  destruct (entry_passes gi t name_entry "name" m) as [[n| | |] m1]; try reflexivity.
  destruct n; simpl; [|reflexivity].
  apply IH.
Qed.

Lemma both_falsy_not_satisfied (data_tables : list string)
    (input_dict : gmap string string) m :
  truthy (get_value_from_inputs input_dict) = false ->
  truthy (get_name_from_inputs input_dict) = false ->
  input_entries_exist_in_data_tables gi data_tables input_dict m = (Val false, m).
Proof.
  intros Hv Hn. unfold input_entries_exist_in_data_tables.
  now rewrite Hv, Hn.
Qed.

Lemma not_satisfied_dispatches (a : args) (dm : data_manager)
    (inputs : gmap string string) (job_list : list job) (skipped : nat) m m' :
  input_entries_exist_in_data_tables gi
    (default [] (dm_data_table_reload dm)) inputs m = (Val false, m') ->
  skip_or_dispatch gi a dm inputs job_list skipped m =
  dispatch gi dm inputs job_list skipped m'.
Proof.
  intros H. unfold skip_or_dispatch. now rewrite (bind_val _ _ _ _ _ H).
Qed.

End Idempotency.

(** C5: an input dict with none of the keys name, sequence_name, value,
    sequence_id, dbkey makes the idempotency check answer false, for every
    list of data tables and every server, without asking the server; the
    orchestrator then dispatches the job. *)
Theorem no_identifying_key_not_satisfied {W : Type} (gi : GalaxyInstance W)
    (a : args) (dm : data_manager) (data_tables : list string)
    (input_dict : gmap string string) (job_list : list job) (skipped : nat)
    (m : machine W) :
  input_dict !! "name" = None ->
  input_dict !! "sequence_name" = None ->
  input_dict !! "value" = None ->
  input_dict !! "sequence_id" = None ->
  input_dict !! "dbkey" = None ->
  input_entries_exist_in_data_tables gi data_tables input_dict m = (Val false, m)
  /\ skip_or_dispatch gi a dm input_dict job_list skipped m =
     dispatch gi dm input_dict job_list skipped m.
Proof.
  intros Hn Hsn Hv Hsi Hd.
  assert (Hvalue : get_value_from_inputs input_dict = CFalse).
  { apply first_present_none. repeat constructor; assumption. }
  assert (Hname : get_name_from_inputs input_dict = CFalse).
  { apply first_present_none. repeat constructor; assumption. }
  assert (Hall : forall ts,
    input_entries_exist_in_data_tables gi ts input_dict m = (Val false, m)).
  { intros ts. apply both_falsy_not_satisfied.
    - now rewrite Hvalue.
    - now rewrite Hname. }
  split; [apply Hall|].
  apply not_satisfied_dispatches, Hall.
Qed.

Lemma no_identifying_key_witness :
  input_entries_exist_in_data_tables (scripted (always "ok") only_all_fasta)
    ["all_fasta"] {[ "url" := "http://example.org/hg19.fa" ]} start
  = (Val false, start)
  /\ skip_or_dispatch (scripted (always "ok") only_all_fasta) example_args
       example_dm {[ "url" := "http://example.org/hg19.fa" ]} [] 0 start
     = dispatch (scripted (always "ok") only_all_fasta) example_dm
         {[ "url" := "http://example.org/hg19.fa" ]} [] 0 start.
Proof.
  apply (no_identifying_key_not_satisfied
           (scripted (always "ok") only_all_fasta) example_args example_dm
           ["all_fasta"] {[ "url" := "http://example.org/hg19.fa" ]} [] 0 start);
    reflexivity.
Defined.

(** C6: the precedence of the candidate keys is strict.  With name and
    sequence_name both present the name candidate is the value under
    name; the value candidate is the value under value when sequence_id
    or dbkey is present too, and the value under sequence_id when value
    is absent and dbkey present.  In each case the candidate is the same
    whatever the lower key maps to. *)
Theorem candidate_precedence_is_strict :
  (forall (input_dict : gmap string string) (v w : string),
     input_dict !! "name" = Some v ->
     input_dict !! "sequence_name" = Some w ->
     get_name_from_inputs input_dict = CStr v)
  /\ (forall (input_dict : gmap string string) (v w : string),
     input_dict !! "value" = Some v ->
     input_dict !! "sequence_id" = Some w ->
     get_value_from_inputs input_dict = CStr v)
  /\ (forall (input_dict : gmap string string) (v w : string),
     input_dict !! "value" = Some v ->
     input_dict !! "dbkey" = Some w ->
     get_value_from_inputs input_dict = CStr v)
  /\ (forall (input_dict : gmap string string) (v w : string),
     input_dict !! "value" = None ->
     input_dict !! "sequence_id" = Some v ->
     input_dict !! "dbkey" = Some w ->
     get_value_from_inputs input_dict = CStr v).
Proof.
  repeat split; intros d v w.
  - intros Hv _. apply (first_present_app [] ["sequence_name"]); auto.
  - intros Hv _. apply (first_present_app [] ["sequence_id"; "dbkey"]); auto.
  - intros Hv _. apply (first_present_app [] ["sequence_id"; "dbkey"]); auto.
  - intros Hnone Hv _. apply (first_present_app ["value"] ["dbkey"]); auto.
Qed.

Lemma candidate_precedence_witness :
  get_name_from_inputs {[ "name" := "Human"; "sequence_name" := "hg19 full" ]}
    = CStr "Human"
  /\ get_value_from_inputs {[ "value" := "hg19"; "sequence_id" := "chr1" ]}
    = CStr "hg19"
  /\ get_value_from_inputs {[ "value" := "hg19"; "dbkey" := "hg38" ]}
    = CStr "hg19"
  /\ get_value_from_inputs {[ "sequence_id" := "chr1"; "dbkey" := "hg38" ]}
    = CStr "chr1".
Proof.
  destruct candidate_precedence_is_strict as (Hname & Hvalue & Hvalue' & Hseq).
  split; [|split; [|split]].
  - apply (Hname _ "Human" "hg19 full"); reflexivity.
  - apply (Hvalue _ "hg19" "chr1"); reflexivity.
  - apply (Hvalue' _ "hg19" "hg38"); reflexivity.
  - apply (Hseq _ "chr1" "hg38"); reflexivity.
Defined.

(** Dropping the name keys (resp. the value keys) of a dict leaves the
    other chain alone and empties this one. *)
Lemma get_value_without_name_keys (input_dict : gmap string string) :
  get_value_from_inputs (delete "name" (delete "sequence_name" input_dict))
  = get_value_from_inputs input_dict.
Proof.
  unfold get_value_from_inputs, value_keys; simpl.
  now rewrite !lookup_delete_ne by discriminate.
Qed.

Lemma get_name_without_name_keys (input_dict : gmap string string) :
  get_name_from_inputs (delete "name" (delete "sequence_name" input_dict)) = CFalse.
Proof.
  unfold get_name_from_inputs, name_keys; simpl.
  rewrite lookup_delete_eq.
  rewrite lookup_delete_ne by discriminate.
  now rewrite lookup_delete_eq.
Qed.

Lemma falsy_name_like_no_name {W : Type} (gi : GalaxyInstance W)
    (data_tables : list string) (input_dict : gmap string string) m :
  truthy (get_name_from_inputs input_dict) = false ->
  input_entries_exist_in_data_tables gi data_tables input_dict m =
  input_entries_exist_in_data_tables gi data_tables
    (delete "name" (delete "sequence_name" input_dict)) m.
Proof.
  intros H. unfold input_entries_exist_in_data_tables.
  rewrite get_value_without_name_keys, get_name_without_name_keys, H. simpl.
  destruct (negb (truthy (get_value_from_inputs input_dict)) && true); [reflexivity|].
  now apply check_data_tables_falsy_name.
Qed.

(** C10: a candidate key that maps to the empty string gives a falsy
    candidate and shadows the keys after it: with name mapped to the
    empty string (or name absent and sequence_name mapped to it) the
    name candidate is the empty string, and likewise along value,
    sequence_id, dbkey.  A falsy name candidate is never looked up in a
    table (the check runs as on the dict without name keys), and when
    both candidates are falsy the check answers false without asking the
    server and the job is dispatched. *)
Theorem empty_string_candidate_is_falsy :
  truthy (CStr "") = false
  /\ (forall input_dict : gmap string string,
        input_dict !! "name" = Some "" ->
        get_name_from_inputs input_dict = CStr "")
  /\ (forall input_dict : gmap string string,
        input_dict !! "name" = None ->
        input_dict !! "sequence_name" = Some "" ->
        get_name_from_inputs input_dict = CStr "")
  /\ (forall input_dict : gmap string string,
        input_dict !! "value" = Some "" ->
        get_value_from_inputs input_dict = CStr "")
  /\ (forall input_dict : gmap string string,
        input_dict !! "value" = None ->
        input_dict !! "sequence_id" = Some "" ->
        get_value_from_inputs input_dict = CStr "")
  /\ (forall input_dict : gmap string string,
        input_dict !! "value" = None ->
        input_dict !! "sequence_id" = None ->
        input_dict !! "dbkey" = Some "" ->
        get_value_from_inputs input_dict = CStr "")
  /\ (forall (W : Type) (gi : GalaxyInstance W) (data_tables : list string)
        (input_dict : gmap string string) (m : machine W),
        truthy (get_name_from_inputs input_dict) = false ->
        input_entries_exist_in_data_tables gi data_tables input_dict m =
        input_entries_exist_in_data_tables gi data_tables
          (delete "name" (delete "sequence_name" input_dict)) m)
  /\ (forall (W : Type) (gi : GalaxyInstance W) (a : args) (dm : data_manager)
        (data_tables : list string) (input_dict : gmap string string)
        (job_list : list job) (skipped : nat) (m : machine W),
        truthy (get_value_from_inputs input_dict) = false ->
        truthy (get_name_from_inputs input_dict) = false ->
        input_entries_exist_in_data_tables gi data_tables input_dict m
          = (Val false, m)
        /\ skip_or_dispatch gi a dm input_dict job_list skipped m =
           dispatch gi dm input_dict job_list skipped m).
Proof.
  split; [reflexivity|].
  split. { intros d H. apply (first_present_app [] ["sequence_name"]); auto. }
  split. { intros d H0 H. apply (first_present_app ["name"] []); auto. }
  split. { intros d H. apply (first_present_app [] ["sequence_id"; "dbkey"]); auto. }
  split. { intros d H0 H. apply (first_present_app ["value"] ["dbkey"]); auto. }
  split. { intros d H0 H1 H. apply (first_present_app ["value"; "sequence_id"] []); auto. }
  split. { intros W gi ts d m H. now apply falsy_name_like_no_name. }
  intros W gi a dm ts d jl sk m Hv Hn.
  split; [now apply both_falsy_not_satisfied|].
  apply not_satisfied_dispatches. now apply both_falsy_not_satisfied.
Qed.

(** On the inputs with name the empty string and sequence_name x, the
    name candidate is the empty string, nothing is looked up and the job
    is dispatched. *)
Lemma empty_string_candidate_witness :
  get_name_from_inputs {[ "name" := ""; "sequence_name" := "x" ]} = CStr ""
  /\ input_entries_exist_in_data_tables (scripted (always "ok") only_all_fasta)
       ["all_fasta"] {[ "name" := ""; "sequence_name" := "x" ]} start
     = (Val false, start)
  /\ skip_or_dispatch (scripted (always "ok") only_all_fasta) example_args
       example_dm {[ "name" := ""; "sequence_name" := "x" ]} [] 0 start
     = dispatch (scripted (always "ok") only_all_fasta) example_dm
         {[ "name" := ""; "sequence_name" := "x" ]} [] 0 start.
Proof.
  destruct empty_string_candidate_is_falsy
    as (_ & Hname & _ & _ & _ & _ & _ & Hboth).
  split; [apply Hname; reflexivity|].
  apply (Hboth _ (scripted (always "ok") only_all_fasta) example_args
           example_dm ["all_fasta"] _ [] 0%nat start); reflexivity.
Defined.

(** ** Item-list resolution without reference keys *)

(** C8: with falsy [genomes], [parse_items] hands back [items] as they
    are, whatever the JSON library would do: nothing is rendered and
    nothing goes through JSON. *)
Theorem parse_items_identity_on_falsy_genomes (json : Json)
    (items genomes : pyval) :
  py_bool genomes = false ->
  parse_items json items genomes = Val items.
Proof. intros H. unfold parse_items. now rewrite H. Qed.

Lemma parse_items_identity_witness :
  py_bool (PStr "") = false
  /\ parse_items json_unused (PList [PStr "hg19"; PStr "{{ genomes }}"]) (PStr "")
     = Val (PList [PStr "hg19"; PStr "{{ genomes }}"]).
Proof.
  split; [reflexivity|].
  apply (parse_items_identity_on_falsy_genomes json_unused
           (PList [PStr "hg19"; PStr "{{ genomes }}"]) (PStr "")).
  reflexivity.
Defined.

(** The falsy values a YAML file can give [genomes], and the default of
    [run_dm] when the key is absent. *)
Lemma falsy_genomes :
  Forall (fun g => py_bool g = false)
    [PNone; PBool false; PInt 0; PStr ""; PList []; PDict []].
Proof. repeat constructor. Qed.

Lemma parse_items_absent_genomes (json : Json) (conf : config) (items : pyval) :
  conf_genomes conf = None ->
  parse_items json items (genomes_of conf) = Val items.
Proof. intros H. unfold genomes_of. now rewrite H. Qed.

(** ** Template resolution *)

Lemma lex_two (in_print : bool) (acc : string) (c c2 : ascii) (rest : string) :
  lex in_print acc (String c (String c2 rest)) =
  if in_print then
    if Ascii.eqb c "}" && Ascii.eqb c2 "}" then
      match plain_name acc with
      | Some x => res_bind (lex false "" rest) (fun segs => Val (Output x :: segs))
      | None => Unmodelled "expression other than a plain name"
      end
    else lex true (snoc_char acc c) (String c2 rest)
  else
    if Ascii.eqb c "{" && Ascii.eqb c2 "{" then
      res_bind (lex true "" rest) (fun segs => Val (Data acc :: segs))
    else if Ascii.eqb c "{" && (Ascii.eqb c2 "%" || Ascii.eqb c2 "#") then
      Unmodelled "block statement or comment"
    else lex false (snoc_char acc c) (String c2 rest).
Proof. reflexivity. Qed.

Lemma lex_one (in_print : bool) (acc : string) (c : ascii) :
  lex in_print acc (String c "") = lex in_print (snoc_char acc c) "".
Proof. reflexivity. Qed.




(** The template reference is outside the model, so no property of
    rendering is stated about it. *)
Example template_reference_is_unmodelled :
  Template "{{ self }}" = Unmodelled "expression other than a plain name"
  /\ Template "{{self}}_index" = Unmodelled "expression other than a plain name".
Proof. split; reflexivity. Qed.







(** ** What the poller returns in general *)

Section Poller.

Context {W : Type} (gi : GalaxyInstance W).

(** Within one poll cycle every job put on the failed list is put on the
    finished list too (line 61). *)
Lemma poll_jobs_failed_in_finished (jobs finished failed : list job) m
    (finished' failed' : list job) m' :
  poll_jobs gi jobs finished failed m = (Val (finished', failed'), m') ->
  incl failed finished -> incl failed' finished'.
Proof.
  revert finished failed m.
  induction jobs as [|job rest IH]; intros finished failed m H Hincl.
  - inversion H; subst. exact Hincl.
  - simpl in H.
    apply bind_val_inv in H as (o & m1 & _ & H).
    apply bind_val_inv in H as (state & m2 & _ & H).
    apply bind_val_inv in H as (fin1 & m3 & Hok & H).
    apply bind_val_inv in H as ([fin2 fail2] & m4 & Herr & H).
    apply (IH _ _ _ H).
    assert (Hfin1 : incl finished fin1).
    { destruct (String.eqb state "ok"); inversion Hok; subst.
      - apply incl_appl, incl_refl.
      - apply incl_refl. }
    destruct (String.eqb state "error"); inversion Herr; subst.
    + apply incl_app.
      * apply incl_appl. eapply incl_tran; eauto.
      * apply incl_appr, incl_refl.
    + eapply incl_tran; eauto.
Qed.

Lemma wait_loop_failed_in_finished (fuel : nat)
    (bound : option (list job * list job)) (job_list : list job) m
    (finished failed : list job) m' :
  wait_loop gi fuel bound job_list m = (Val (finished, failed), m') ->
  (forall r, bound = Some r -> incl (snd r) (fst r)) ->
  incl failed finished.
Proof.
  revert bound job_list m.
  induction fuel as [|fuel IH]; intros bound job_list m H Hbound.
  - destruct job_list; simpl in H; [|discriminate].
    destruct bound as [r|]; inversion H; subst.
    now apply (Hbound (finished, failed)).
  - destruct job_list as [|j job_list].
    + simpl in H. destruct bound as [r|]; inversion H; subst.
      now apply (Hbound (finished, failed)).
    + cbn [wait_loop nonempty] in H.
      apply bind_val_inv in H as ([fin fail] & m1 & Hpoll & H).
      apply bind_val_inv in H as (job_list' & m2 & _ & H).
      apply bind_val_inv in H as (u & m3 & _ & H).
      apply (IH _ _ _ H). intros r Hr. inversion Hr; subst. simpl.
      apply (poll_jobs_failed_in_finished _ _ _ _ _ _ _ Hpoll).
      apply incl_nil_l.
Qed.

(** X1: Every job [wait] reports as failed it also reports as finished. *)
Lemma wait_failed_in_finished (fuel : nat) (job_list : list job) m
    (finished failed : list job) m' :
  wait gi fuel job_list m = (Val (finished, failed), m') ->
  incl failed finished.
Proof.
  intros H. apply (wait_loop_failed_in_finished _ _ _ _ _ _ _ H).
  intros r Hr. discriminate Hr.
Qed.

End Poller.

(** ** The completion poller on concrete runs *)

(** Once the job list is empty the loop ends with whatever the last pass
    bound, for any fuel. *)
Lemma wait_loop_done {W : Type} (gi : GalaxyInstance W) (fuel : nat)
    (r : list job * list job) (m : machine W) :
  wait_loop gi fuel (Some r) [] m = (Val r, m).
Proof. destruct fuel; reflexivity. Qed.

(** C1, the code on the three handles with states running, running, ok
    and then ok, error, ok: after two poll cycles and
    one sleep of 30 seconds, [wait] returns as finished the handles of
    d0 and d1 and as failed the handle of d1.  The handle of d2, which
    was ok in the first cycle, is in neither list, and the failed handle
    of d1 is in both. *)
Theorem wait_keeps_last_cycle_only (n : nat) :
  fst (wait (scripted polling_states no_tables) (2 + n) handles start)
    = Val ([job_number 0; job_number 1], [job_number 1])
  /\ polls (trace (snd (wait (scripted polling_states no_tables) (2 + n) handles start)))
    = [ShowDataset "d0"; ShowDataset "d1"; ShowDataset "d2"; Sleep 30;
       ShowDataset "d0"; ShowDataset "d1"].
Proof. destruct n; split; reflexivity. Qed.

(** C2, the code at the empty list: [wait] polls nothing and sleeps not
    at all, but the [return] reads [finished_jobs], which no pass of the
    loop has bound, and raises [UnboundLocalError] instead of returning
    two empty lists. *)
Theorem wait_empty_list_unbound {W : Type} (gi : GalaxyInstance W)
    (fuel : nat) (m : machine W) :
  wait gi fuel [] m = (Raise (UnboundLocalError "finished_jobs"), m).
Proof. destruct fuel; reflexivity. Qed.

(** ** The check under the overwrite option *)

Section Orchestrator.

Context {W : Type} (gi : GalaxyInstance W) (json : Json).

(** An unknown table: whatever the request raises becomes the exception
    of line 78. *)
Lemma missing_table_raises (data_table_name entry column : string)
    (m : machine W) (x : exn) (w' : W) :
  gi_show_data_table gi data_table_name (world m) = (inl x, w') ->
  data_table_entry_exists gi data_table_name entry column m =
  (Raise (table_missing data_table_name),
   {| world := w'; trace := trace m ++ [ShowDataTable data_table_name] |}).
Proof.
  intros H. unfold data_table_entry_exists, bind, try_except, request.
  now rewrite H.
Qed.

Lemma py_index_missing (l : list string) (x : string) :
  ~ In x l ->
  py_index l x = Raise (ValueError ("'" +:+ x +:+ "' is not in list")).
Proof.
  induction l as [|y l IH]; intros Hx; simpl; [reflexivity|].
  destruct (String.eqb_spec y x) as [->|Hne].
  - exfalso. apply Hx. now left.
  - rewrite IH; [reflexivity|]. intros Hin. apply Hx. now right.
Qed.

(** X10: A table without the column: [index] raises [ValueError], which the
    handler for [IndexError] of line 82 lets through. *)
Lemma missing_column_raises (data_table_name entry column : string)
    (m : machine W) (t : data_table) (w' : W) :
  gi_show_data_table gi data_table_name (world m) = (inr t, w') ->
  ~ In column (columns t) ->
  data_table_entry_exists gi data_table_name entry column m =
  (Raise (ValueError ("'" +:+ column +:+ "' is not in list")),
   {| world := w'; trace := trace m ++ [ShowDataTable data_table_name] |}).
Proof.
  intros H Hcol. unfold data_table_entry_exists, bind, try_except, request, lift.
  rewrite H. simpl. now rewrite (py_index_missing _ _ Hcol).
Qed.

Lemma items_loop_app (a : args) (dm : data_manager) (pre post : list pyval)
    (job_list : list job) (skipped : nat) (m : machine W) :
  items_loop gi a dm (pre ++ post) job_list skipped m =
  bind (items_loop gi a dm pre job_list skipped)
       (fun r => items_loop gi a dm post (fst r) (snd r)) m.
Proof.
  revert job_list skipped m.
  induction pre as [|item pre IH]; intros job_list skipped m; [reflexivity|].
  simpl. unfold bind, lift.
  destruct (build_inputs (dm_params dm) item ∅) as [inputs| | |]; try reflexivity.
  destruct (skip_or_dispatch gi a dm inputs job_list skipped m)
    as [[[jl sk]| | |] m']; try reflexivity.
  apply IH.
Qed.

Lemma steps_loop_app (fuel : nat) (a : args) (genomes : pyval)
    (pre post : list data_manager) (t : totals) (m : machine W) :
  steps_loop gi json fuel a genomes (pre ++ post) t m =
  bind (steps_loop gi json fuel a genomes pre t)
       (fun t' => steps_loop gi json fuel a genomes post t') m.
Proof.
  revert t m. induction pre as [|dm pre IH]; intros t m; [reflexivity|].
  simpl. unfold bind.
  destruct (run_step gi json fuel a genomes dm t m) as [[t'| | |] m'];
    try reflexivity.
  apply IH.
Qed.

(** An exception raised by the check of an item ends the loop over the
    items, the step and the run, whatever [overwrite] is. *)
Lemma check_raise_ends_item (a : args) (dm : data_manager)
    (inputs : gmap string string) (job_list : list job) (skipped : nat)
    (m m' : machine W) (e : exn) :
  input_entries_exist_in_data_tables gi
    (default [] (dm_data_table_reload dm)) inputs m = (Raise e, m') ->
  skip_or_dispatch gi a dm inputs job_list skipped m = (Raise e, m').
Proof. intros H. unfold skip_or_dispatch. now apply bind_raise. Qed.

Lemma check_raise_ends_items (a : args) (dm : data_manager)
    (items_before items_after : list pyval) (item : pyval)
    (inputs : gmap string string) (job_list0 job_list : list job)
    (skipped0 skipped : nat) (m1 m2 m3 : machine W) (e : exn) :
  items_loop gi a dm items_before job_list0 skipped0 m1
    = (Val (job_list, skipped), m2) ->
  build_inputs (dm_params dm) item ∅ = Val inputs ->
  input_entries_exist_in_data_tables gi
    (default [] (dm_data_table_reload dm)) inputs m2 = (Raise e, m3) ->
  items_loop gi a dm (items_before ++ item :: items_after) job_list0 skipped0 m1
    = (Raise e, m3).
Proof.
  intros Hbefore Hinputs Hcheck.
  rewrite items_loop_app, (bind_val _ _ _ _ _ Hbefore). simpl.
  rewrite (bind_lift_val _ _ _ _ Hinputs).
  apply bind_raise. now apply check_raise_ends_item.
Qed.

Lemma items_raise_ends_step (fuel : nat) (a : args) (genomes : pyval)
    (dm : data_manager) (t : totals) (items : pyval) (item_list : list pyval)
    (m m' : machine W) (e : exn) :
  parse_items json (default (PList [PStr ""]) (dm_items dm)) genomes = Val items ->
  py_iter items = Val item_list ->
  items_loop gi a dm item_list [] (number_skipped_jobs t) m = (Raise e, m') ->
  run_step gi json fuel a genomes dm t m = (Raise e, m').
Proof.
  intros Hparse Hiter Hitems. unfold run_step.
  rewrite (bind_lift_val _ _ _ _ Hparse), (bind_lift_val _ _ _ _ Hiter).
  now apply bind_raise.
Qed.

Lemma step_raise_ends_run (fuel : nat) (a : args) (conf : config)
    (dms_before dms_after : list data_manager) (dm : data_manager)
    (t : totals) (m m0 m1 m' : machine W) (e : exn) :
  conf_data_managers conf = Some (dms_before ++ dm :: dms_after) ->
  connect gi m = (Val tt, m0) ->
  steps_loop gi json fuel a (genomes_of conf) dms_before no_totals m0
    = (Val t, m1) ->
  run_step gi json fuel a (genomes_of conf) dm t m1 = (Raise e, m') ->
  run_dm gi json fuel a conf m = (Raise e, m').
Proof.
  intros Hconf Hconnect Hbefore Hstep. unfold run_dm.
  rewrite (bind_val _ _ _ _ _ Hconnect), Hconf.
  apply bind_raise.
  rewrite steps_loop_app, (bind_val _ _ _ _ _ Hbefore). simpl.
  now apply bind_raise.
Qed.

End Orchestrator.

(** C9: the overwrite option does not skip the idempotency check.  With
    overwrite set, an item is handled by running the check, with its
    requests to the server, and then dispatching the job whatever the
    check answered; and when the check of an item raises (a table or a
    column is missing), [run_dm] ends with that exception right after
    the check, the job of the item not dispatched. *)
Theorem overwrite_keeps_the_check :
  (forall (W : Type) (gi : GalaxyInstance W) (a : args) (dm : data_manager)
      (inputs : gmap string string) (job_list : list job) (skipped : nat)
      (m m' : machine W) (present : bool),
      overwrite a = true ->
      input_entries_exist_in_data_tables gi
        (default [] (dm_data_table_reload dm)) inputs m = (Val present, m') ->
      skip_or_dispatch gi a dm inputs job_list skipped m =
      dispatch gi dm inputs job_list skipped m')
  /\ (forall (W : Type) (gi : GalaxyInstance W) (json : Json) (fuel : nat)
      (a : args) (conf : config)
      (dms_before dms_after : list data_manager) (dm : data_manager)
      (t : totals) (items : pyval) (items_before items_after : list pyval)
      (item : pyval) (inputs : gmap string string) (job_list : list job)
      (skipped : nat) (m m0 m1 m2 m3 : machine W) (e : exn),
      overwrite a = true ->
      conf_data_managers conf = Some (dms_before ++ dm :: dms_after) ->
      connect gi m = (Val tt, m0) ->
      steps_loop gi json fuel a (genomes_of conf) dms_before no_totals m0
        = (Val t, m1) ->
      parse_items json (default (PList [PStr ""]) (dm_items dm)) (genomes_of conf)
        = Val items ->
      py_iter items = Val (items_before ++ item :: items_after) ->
      items_loop gi a dm items_before [] (number_skipped_jobs t) m1
        = (Val (job_list, skipped), m2) ->
      build_inputs (dm_params dm) item ∅ = Val inputs ->
      input_entries_exist_in_data_tables gi
        (default [] (dm_data_table_reload dm)) inputs m2 = (Raise e, m3) ->
      run_dm gi json fuel a conf m = (Raise e, m3)).
Proof.
  split.
  - intros W gi a dm inputs jl sk m m' present Hover Hcheck.
    unfold skip_or_dispatch.
    rewrite (bind_val _ _ _ _ _ Hcheck), Hover.
    now rewrite andb_false_r.
  - intros W gi json fuel a conf dms_before dms_after dm t items items_before
      items_after item inputs jl sk m m0 m1 m2 m3 e
      _ Hconf Hconnect Hsteps Hparse Hiter Hitems Hinputs Hcheck.
    eapply step_raise_ends_run; eauto.
    eapply items_raise_ends_step; eauto.
    eapply check_raise_ends_items; eauto.
Qed.

Lemma overwrite_keeps_the_check_witness :
  run_dm (scripted (always "ok") only_all_fasta) json_unused 1 overwriting
    (steps [unknown_table_step]) start
  = (Raise (table_missing "no_such_table"),
     {| world := (0, 0)%nat;
        trace := [GetGenomes; Log INFO (NumberOfDbkeys 0);
                  ShowDataTable "no_such_table"] |}).
Proof.
  destruct overwrite_keeps_the_check as [_ Hrun].
  apply (Hrun _ (scripted (always "ok") only_all_fasta) json_unused 1%nat
           overwriting (steps [unknown_table_step]) [] [] unknown_table_step
           no_totals (PList [PStr "hg38"]) [] [] (PStr "hg38")
           {[ "dbkey" := "hg38" ]} [] 0%nat start
           {| world := (0, 0)%nat;
              trace := [GetGenomes; Log INFO (NumberOfDbkeys 0)] |}
           {| world := (0, 0)%nat;
              trace := [GetGenomes; Log INFO (NumberOfDbkeys 0)] |}
           {| world := (0, 0)%nat;
              trace := [GetGenomes; Log INFO (NumberOfDbkeys 0)] |});
    reflexivity.
Defined.

Example missing_column_ends_run_under_overwrite :
  run_dm (scripted (always "ok") (fun _ => Some nameless)) json_unused 1
    overwriting (steps [name_step]) start
  = (Raise (ValueError "'name' is not in list"),
     {| world := (0, 0)%nat;
        trace := [GetGenomes; Log INFO (NumberOfDbkeys 0);
                  ShowDataTable "all_fasta"] |}).
Proof. reflexivity. Qed.

(** ** The failure policy and the counts in general *)

Section Policy.

Context {W : Type} (gi : GalaxyInstance W) (json : Json).

Lemma failure_policy_none (a : args) (m : machine W) :
  failure_policy a [] m = (Val tt, m).
Proof. reflexivity. Qed.

Lemma failure_policy_aborts (a : args) (failed : list job) (m : machine W) :
  failed <> [] -> ignore_errors a = false ->
  failure_policy a failed m = (Raise (Exception abort_message), m).
Proof.
  intros Hne Hign. unfold failure_policy.
  destruct failed; [congruence|]. simpl. now rewrite Hign.
Qed.

Lemma failure_policy_ignores (a : args) (failed : list job) (m : machine W) :
  failed <> [] -> ignore_errors a = true ->
  failure_policy a failed m =
  (Val tt, {| world := world m;
              trace := trace m ++ [Log ERROR NotAllSuccessfulIgnoring] |}).
Proof.
  intros Hne Hign. unfold failure_policy.
  destruct failed; [congruence|]. simpl. now rewrite Hign.
Qed.

(** X19: When [wait] reports a failed job for a step and errors are not
    ignored, the run ends with the exception of line 189 in the state
    [wait] left: no later item or step is handled. *)
Lemma reported_failure_aborts_run (fuel : nat) (a : args) (conf : config)
    (dms_before dms_after : list data_manager) (dm : data_manager)
    (t : totals) (items : pyval) (item_list : list pyval)
    (job_list finished failed : list job) (skipped : nat)
    (m m0 m1 m2 m3 : machine W) :
  ignore_errors a = false ->
  conf_data_managers conf = Some (dms_before ++ dm :: dms_after) ->
  connect gi m = (Val tt, m0) ->
  steps_loop gi json fuel a (genomes_of conf) dms_before no_totals m0
    = (Val t, m1) ->
  parse_items json (default (PList [PStr ""]) (dm_items dm)) (genomes_of conf)
    = Val items ->
  py_iter items = Val item_list ->
  items_loop gi a dm item_list [] (number_skipped_jobs t) m1
    = (Val (job_list, skipped), m2) ->
  wait gi fuel job_list m2 = (Val (finished, failed), m3) ->
  failed <> [] ->
  run_dm gi json fuel a conf m = (Raise (Exception abort_message), m3).
Proof.
  intros Hign Hconf Hconnect Hsteps Hparse Hiter Hitems Hwait Hne.
  eapply step_raise_ends_run; eauto.
  unfold run_step.
  rewrite (bind_lift_val _ _ _ _ Hparse), (bind_lift_val _ _ _ _ Hiter).
  rewrite (bind_val _ _ _ _ _ Hitems). cbn beta iota.
  rewrite (bind_val _ _ _ _ _ Hwait). cbn beta iota.
  apply bind_raise. now apply failure_policy_aborts.
Qed.

(** X20: With errors ignored the step logs the failure and ends well, its
    lists added to the totals. *)
Lemma reported_failure_ignored (fuel : nat) (a : args) (genomes : pyval)
    (dm : data_manager) (t : totals) (items : pyval) (item_list : list pyval)
    (job_list finished failed : list job) (skipped : nat)
    (m1 m2 m3 : machine W) :
  ignore_errors a = true ->
  parse_items json (default (PList [PStr ""]) (dm_items dm)) genomes = Val items ->
  py_iter items = Val item_list ->
  items_loop gi a dm item_list [] (number_skipped_jobs t) m1
    = (Val (job_list, skipped), m2) ->
  wait gi fuel job_list m2 = (Val (finished, failed), m3) ->
  failed <> [] ->
  run_step gi json fuel a genomes dm t m1 =
  (Val {| number_skipped_jobs := skipped;
          all_failed_jobs := all_failed_jobs t ++ failed;
          all_finished_jobs := all_finished_jobs t ++ finished |},
   {| world := world m3;
      trace := trace m3 ++ [Log ERROR NotAllSuccessfulIgnoring] |}).
Proof.
  intros Hign Hparse Hiter Hitems Hwait Hne. unfold run_step.
  rewrite (bind_lift_val _ _ _ _ Hparse), (bind_lift_val _ _ _ _ Hiter).
  rewrite (bind_val _ _ _ _ _ Hitems). cbn beta iota.
  rewrite (bind_val _ _ _ _ _ Hwait). cbn beta iota.
  now rewrite (bind_val _ _ _ _ _ (failure_policy_ignores a failed m3 Hne Hign)).
Qed.

(** Every item is either skipped or dispatched: it adds one to the
    skip counter or one job to the job list, never both. *)
Lemma skip_or_dispatch_counts (a : args) (dm : data_manager)
    (inputs : gmap string string) (job_list job_list' : list job)
    (skipped skipped' : nat) (m m' : machine W) :
  skip_or_dispatch gi a dm inputs job_list skipped m
    = (Val (job_list', skipped'), m') ->
  (job_list' = job_list /\ skipped' = S skipped)
  \/ (exists job, job_list' = job_list ++ [job]) /\ skipped' = skipped.
Proof.
  unfold skip_or_dispatch. intros H.
  apply (bind_val_inv (W:=W)) in H as (present & m1 & _ & H).
  destruct (present && negb (overwrite a)).
  - left. apply (bind_val_inv (W:=W)) in H as (u & m2 & _ & H).
    inversion H; subst. now split.
  - right. unfold dispatch in H.
    apply (bind_val_inv (W:=W)) in H as (job & m2 & _ & H).
    apply (bind_val_inv (W:=W)) in H as (o & m3 & _ & H).
    apply (bind_val_inv (W:=W)) in H as (u & m4 & _ & H).
    inversion H; subst. split; [now exists job|reflexivity].
Qed.

Lemma items_loop_counts (a : args) (dm : data_manager) (items : list pyval)
    (job_list job_list' : list job) (skipped skipped' : nat)
    (m m' : machine W) :
  items_loop gi a dm items job_list skipped m = (Val (job_list', skipped'), m') ->
  (length job_list' + skipped' = length items + (length job_list + skipped))%nat
  /\ (skipped <= skipped')%nat.
Proof.
  revert job_list skipped m.
  induction items as [|item rest IH]; intros job_list skipped m H.
  - inversion H; subst. simpl. split; lia.
  - simpl in H.
    apply (bind_val_inv (W:=W)) in H as (inputs & m1 & _ & H).
    apply (bind_val_inv (W:=W)) in H as ([jl sk] & m2 & Hitem & H).
    apply IH in H as [Hsum Hle].
    apply skip_or_dispatch_counts in Hitem as [[-> ->]|[[job ->] ->]].
    + simpl. split; lia.
    + rewrite length_app in Hsum. simpl in *. split; lia.
Qed.

(** The three totals only grow along a step and along the steps. *)
Lemma run_step_counts_grow (fuel : nat) (a : args) (genomes : pyval)
    (dm : data_manager) (t t' : totals) (m m' : machine W) :
  run_step gi json fuel a genomes dm t m = (Val t', m') ->
  (number_skipped_jobs t <= number_skipped_jobs t')%nat
  /\ (exists finished, all_finished_jobs t' = all_finished_jobs t ++ finished)
  /\ (exists failed, all_failed_jobs t' = all_failed_jobs t ++ failed).
Proof.
  unfold run_step. intros H.
  apply (bind_val_inv (W:=W)) in H as (items & m1 & _ & H).
  apply (bind_val_inv (W:=W)) in H as (item_list & m2 & _ & H).
  apply (bind_val_inv (W:=W)) in H as ([jl sk] & m3 & Hitems & H).
  apply (bind_val_inv (W:=W)) in H as ([fin fail] & m4 & _ & H).
  apply (bind_val_inv (W:=W)) in H as (u & m5 & _ & H).
  inversion H; subst; simpl.
  apply items_loop_counts in Hitems as [_ Hle].
  split; [exact Hle|]. split; eauto.
Qed.

Lemma steps_loop_counts_grow (fuel : nat) (a : args) (genomes : pyval)
    (dms : list data_manager) (t t' : totals) (m m' : machine W) :
  steps_loop gi json fuel a genomes dms t m = (Val t', m') ->
  (skipped_jobs (summary_of t) <= skipped_jobs (summary_of t'))%nat
  /\ (finished_jobs (summary_of t) <= finished_jobs (summary_of t'))%nat
  /\ (failed_jobs (summary_of t) <= failed_jobs (summary_of t'))%nat.
Proof.
  revert t m. induction dms as [|dm rest IH]; intros t m H.
  - inversion H; subst. repeat split; lia.
  - simpl in H.
    apply (bind_val_inv (W:=W)) in H as (t1 & m1 & Hstep & H).
    apply IH in H as (Hs & Hf & He).
    apply run_step_counts_grow in Hstep as (Hs1 & [fin Hfin] & [fail Hfail]).
    unfold summary_of in *. simpl in *.
    rewrite Hfin, Hfail, !length_app in *.
    repeat split; lia.
Qed.

End Policy.

(** ** The orchestrator on concrete runs *)

(** A run whose only item is already in its table: the item is skipped,
    [wait] gets the empty job list and the run ends in its
    [UnboundLocalError]. *)
Example all_skipped_run_raises :
  run_dm (scripted (always "ok") only_all_fasta) json_unused 1 example_args
    (steps [step "fetch" ["hg19"]]) start
  = (Raise (UnboundLocalError "finished_jobs"),
     {| world := (0, 0)%nat;
        trace := [GetGenomes; Log INFO (NumberOfDbkeys 0);
                  ShowDataTable "all_fasta";
                  Log INFO (AlreadyRun "fetch" {[ "dbkey" := "hg19" ]})] |}).
Proof. vm_compute. reflexivity. Qed.

(** C3, the code on two runs that end well.  One job that fails, with
    errors ignored: it is counted as finished and as failed, the counts
    sum to 2 for 1 job.  Two jobs that succeed in different poll cycles:
    only the later one is counted, the counts sum to 1 for 2 jobs. *)
Theorem summary_miscounts :
  (fst (run_dm (scripted (always "error") only_all_fasta) json_unused 1
          ignoring_errors (steps [step "fetch" ["hg38"]]) start)
     = Val {| finished_jobs := 1; failed_jobs := 1; skipped_jobs := 0 |}
   /\ dispatched (trace (snd (run_dm (scripted (always "error") only_all_fasta)
          json_unused 1 ignoring_errors (steps [step "fetch" ["hg38"]]) start)))
     = ["fetch"])
  /\ (fst (run_dm (scripted late_states only_all_fasta) json_unused 2
          example_args (steps [step "fetch" ["hg38"; "mm10"]]) start)
     = Val {| finished_jobs := 1; failed_jobs := 0; skipped_jobs := 0 |}
   /\ dispatched (trace (snd (run_dm (scripted late_states only_all_fasta)
          json_unused 2 example_args (steps [step "fetch" ["hg38"; "mm10"]]) start)))
     = ["fetch"; "fetch"]).
Proof. repeat split; vm_compute; reflexivity. Qed.

(** C4, the code on a run with errors not ignored whose first step has
    a job that fails in the first poll cycle and a job that succeeds in
    the second: the run is not aborted, the job of the second step is
    dispatched and the summary reports no failed job. *)
Theorem early_failure_not_aborted :
  fst (run_dm (scripted early_error_states only_all_fasta) json_unused 2
         example_args
         (steps [step "fetch" ["hg38"; "mm10"]; step "index" ["hg38"]]) start)
    = Val {| finished_jobs := 2; failed_jobs := 0; skipped_jobs := 0 |}
  /\ dispatched (trace (snd (run_dm (scripted early_error_states only_all_fasta)
         json_unused 2 example_args
         (steps [step "fetch" ["hg38"; "mm10"]; step "index" ["hg38"]]) start)))
    = ["fetch"; "fetch"; "index"]
  /\ polls (trace (snd (run_dm (scripted early_error_states only_all_fasta)
         json_unused 2 example_args
         (steps [step "fetch" ["hg38"; "mm10"]; step "index" ["hg38"]]) start)))
    = [ShowDataset "d0"; ShowDataset "d1"; Sleep 30; ShowDataset "d1";
       ShowDataset "d2"].
Proof. repeat split; vm_compute; reflexivity. Qed.


(** * Further properties *)

(** ** What a computation adds to the trace *)

Section Emits.

Context {W : Type}.

Lemma emits_ret {A} (P : event -> Prop) (a : A) : emits P (ret a : M W A).
Proof. intros m. exists []. simpl. now rewrite app_nil_r. Qed.

Lemma emits_raise {A} (P : event -> Prop) (e : exn) : emits P (raise e : M W A).
Proof. intros m. exists []. simpl. now rewrite app_nil_r. Qed.

Lemma emits_lift {A} (P : event -> Prop) (r : res A) : emits P (lift r : M W A).
Proof. intros m. exists []. simpl. now rewrite app_nil_r. Qed.

Lemma emits_out_of_fuel {A} (P : event -> Prop) : emits P (out_of_fuel : M W A).
Proof. intros m. exists []. simpl. now rewrite app_nil_r. Qed.

Lemma emits_emit (P : event -> Prop) (e : event) :
  P e -> emits P (emit e : M W unit).
Proof. intros He m. exists [e]. simpl. split; [reflexivity|]. now constructor. Qed.

Lemma emits_request {A} (P : event -> Prop) (e : event)
    (f : W -> (exn + A) * W) :
  P e -> emits P (request e f).
Proof.
  intros He m. exists [e]. unfold request.
  destruct (f (world m)) as [r w']. simpl. split; [reflexivity|]. now constructor.
Qed.

Lemma emits_bind {A B} (P : event -> Prop) (c : M W A) (k : A -> M W B) :
  emits P c -> (forall a, emits P (k a)) -> emits P (bind c k).
Proof.
  intros Hc Hk m. unfold bind.
  destruct (Hc m) as (es1 & Ht1 & HP1).
  destruct (c m) as [[a| | |] m1]; simpl in Ht1; try (exists es1; now split).
  destruct (Hk a m1) as (es2 & Ht2 & HP2).
  exists (es1 ++ es2). split.
  - now rewrite Ht2, Ht1, app_assoc.
  - now apply Forall_app.
Qed.

Lemma emits_try_except {A} (P : event -> Prop) (c : M W A)
    (handles : exn -> bool) (h : exn -> M W A) :
  emits P c -> (forall e, emits P (h e)) -> emits P (try_except c handles h).
Proof.
  intros Hc Hh m. unfold try_except.
  destruct (Hc m) as (es1 & Ht1 & HP1).
  destruct (c m) as [[a|e| |] m1]; simpl in Ht1; try (exists es1; now split).
  destruct (handles e); [|exists es1; now split].
  destruct (Hh e m1) as (es2 & Ht2 & HP2).
  exists (es1 ++ es2). split.
  - now rewrite Ht2, Ht1, app_assoc.
  - now apply Forall_app.
Qed.

Lemma emits_bind_lift {A B} (P : event -> Prop) (r : res A) (k : A -> M W B) :
  (forall a, r = Val a -> emits P (k a)) -> emits P (bind (lift r) k).
Proof.
  intros Hk m. unfold bind, lift.
  destruct r as [a| | |]; try (exists []; simpl; now rewrite app_nil_r).
  now apply Hk.
Qed.

Lemma emits_weaken {A} (P Q : event -> Prop) (c : M W A) :
  (forall e, P e -> Q e) -> emits P c -> emits Q c.
Proof.
  intros HPQ Hc m. destruct (Hc m) as (es & Ht & HP).
  exists es. split; [exact Ht|]. eapply Forall_impl; eauto.
Qed.

End Emits.


(** ** What the idempotency check asks the server *)

Section CheckRequests.

Context {W : Type} (gi : GalaxyInstance W).

Lemma data_table_entry_exists_emits (data_tables : list string)
    (data_table entry column : string) :
  In data_table data_tables ->
  emits (check_event data_tables)
    (data_table_entry_exists gi data_table entry column).
Proof.
  intros Hin. unfold data_table_entry_exists.
  apply emits_bind.
  - apply emits_try_except.
    + now apply emits_request.
    + intros e. apply emits_raise.
  - intros content. apply emits_bind.
    + apply emits_try_except; [apply emits_lift|].
      intros e. apply emits_raise.
    + intros i. apply emits_lift.
Qed.

Lemma entry_passes_emits (data_tables : list string) (data_table column : string)
    (entry : candidate) :
  In data_table data_tables ->
  emits (check_event data_tables) (entry_passes gi data_table entry column).
Proof.
  intros Hin. unfold entry_passes.
  destruct entry as [|s]; [apply emits_ret|].
  destruct (truthy (CStr s)); [|apply emits_ret].
  now apply data_table_entry_exists_emits.
Qed.

Lemma check_data_tables_emits (all_tables data_tables : list string)
    (value_entry name_entry : candidate) :
  incl data_tables all_tables ->
  emits (check_event all_tables)
    (check_data_tables gi value_entry name_entry data_tables).
Proof.
  induction data_tables as [|t ts IH]; intros Hincl; simpl; [apply emits_ret|].
  assert (Ht : In t all_tables) by (apply Hincl; now left).
  assert (Hts : incl ts all_tables) by (intros x Hx; apply Hincl; now right).
  apply emits_bind; [now apply entry_passes_emits|].
  intros v. destruct v; simpl; [|apply emits_ret].
  apply emits_bind; [now apply entry_passes_emits|].
  intros n. destruct n; simpl; [|apply emits_ret].
  now apply IH.
Qed.

(** X6: The idempotency check does nothing to the outside but ask for data
    tables of the list it was given: it dispatches no job, polls no
    dataset, does not sleep and does not log. *)
Theorem check_only_asks_for_its_tables (data_tables : list string)
    (input_dict : gmap string string) :
  emits (check_event data_tables)
    (input_entries_exist_in_data_tables gi data_tables input_dict).
Proof.
  unfold input_entries_exist_in_data_tables.
  destruct (negb (truthy (get_value_from_inputs input_dict))
            && negb (truthy (get_name_from_inputs input_dict)));
    [apply emits_ret|].
  apply check_data_tables_emits, incl_refl.
Qed.

End CheckRequests.

(** ** What the poller asks the server *)

Section PollerRequests.

Context {W : Type} (gi : GalaxyInstance W).

Lemma wait_event_incl (small large : list job) (e : event) :
  incl small large -> wait_event small e -> wait_event large e.
Proof.
  intros Hincl. destruct e; simpl; auto.
  intros (j & Hj & Hid). exists j. split; [now apply Hincl|exact Hid].
Qed.

Lemma poll_jobs_emits (all_jobs jobs finished failed : list job) :
  incl jobs all_jobs ->
  emits (wait_event all_jobs) (poll_jobs gi jobs finished failed).
Proof.
  revert finished failed.
  induction jobs as [|job rest IH]; intros finished failed Hincl; simpl;
    [apply emits_ret|].
  assert (Hjob : In job all_jobs) by (apply Hincl; now left).
  assert (Hrest : incl rest all_jobs) by (intros x Hx; apply Hincl; now right).
  apply emits_bind_lift. intros o Ho.
  apply emits_bind.
  { apply emits_request. simpl. exists job. split; [exact Hjob|].
    unfold first_output, py_getitem in Ho. unfold polled_dataset.
    destruct (outputs job) as [|o' os]; simpl in Ho; [discriminate|].
    now inversion Ho. }
  intros state. apply emits_bind.
  { destruct (String.eqb state "ok"); [|apply emits_ret].
    apply emits_bind; [now apply emits_emit|]. intros _. apply emits_ret. }
  intros fin1. apply emits_bind.
  { destruct (String.eqb state "error");
      (apply emits_bind; [now apply emits_emit|]; intros _; apply emits_ret). }
  intros [fin2 fail2]. now apply IH.
Qed.

Lemma py_remove_incl (x : job) (l l' : list job) :
  py_remove x l = Val l' -> incl l' l.
Proof.
  revert l'. induction l as [|y l IH]; intros l' H; simpl in H; [discriminate|].
  destruct (decide (y = x)).
  - inversion H; subst. apply incl_tl, incl_refl.
  - destruct (py_remove x l) as [r| | |]; simpl in H; try discriminate.
    inversion H; subst.
    apply incl_cons; [now left|]. apply incl_tl. now apply IH.
Qed.

Lemma remove_each_incl (finished job_list job_list' : list job) :
  remove_each finished job_list = Val job_list' -> incl job_list' job_list.
Proof.
  revert job_list. induction finished as [|j rest IH]; intros job_list H; simpl in H.
  - inversion H. apply incl_refl.
  - destruct (py_remove j job_list) as [l| | |] eqn:Hrem; simpl in H; try discriminate.
    apply IH in H. apply (py_remove_incl j) in Hrem.
    eapply incl_tran; eassumption.
Qed.

Lemma sleep_emits (all_jobs : list job) :
  emits (wait_event all_jobs) (sleep gi 30).
Proof. intros m. exists [Sleep 30]. simpl. split; [reflexivity|]. now constructor. Qed.

Lemma wait_loop_emits (all_jobs : list job) (fuel : nat)
    (bound : option (list job * list job)) (job_list : list job) :
  incl job_list all_jobs ->
  emits (wait_event all_jobs) (wait_loop gi fuel bound job_list).
Proof.
  revert bound job_list.
  induction fuel as [|fuel IH]; intros bound job_list Hincl.
  - destruct job_list; simpl; [|apply emits_out_of_fuel].
    destruct bound; [apply emits_ret|apply emits_raise].
  - destruct job_list as [|j job_list].
    { simpl. destruct bound; [apply emits_ret|apply emits_raise]. }
    cbn [wait_loop nonempty].
    apply emits_bind; [now apply poll_jobs_emits|].
    intros [finished failed]. apply emits_bind_lift. intros job_list' Hrem.
    apply emits_bind.
    { destruct (nonempty job_list'); [apply sleep_emits|apply emits_ret]. }
    intros _. apply IH.
    eapply incl_tran; [|exact Hincl]. now apply (remove_each_incl finished).
Qed.

(** X3: All [wait] does to the outside is ask for the dataset of the first
    output of a job it was given, sleep 30 seconds, and log: it
    dispatches nothing, reads no data table and sleeps no other
    length. *)
Theorem wait_only_polls_its_jobs (fuel : nat) (job_list : list job) :
  emits (wait_event job_list) (wait gi fuel job_list).
Proof. apply wait_loop_emits, incl_refl. Qed.

Lemma poll_jobs_finished_given (all_jobs jobs finished failed : list job) m
    (finished' failed' : list job) m' :
  poll_jobs gi jobs finished failed m = (Val (finished', failed'), m') ->
  incl jobs all_jobs -> incl finished all_jobs -> incl finished' all_jobs.
Proof.
  revert finished failed m.
  induction jobs as [|job rest IH]; intros finished failed m H Hjobs Hfin.
  - inversion H; subst. exact Hfin.
  - simpl in H.
    assert (Hjob : In job all_jobs) by (apply Hjobs; now left).
    assert (Hrest : incl rest all_jobs) by (intros x Hx; apply Hjobs; now right).
    apply bind_val_inv in H as (o & m1 & _ & H).
    apply bind_val_inv in H as (state & m2 & _ & H).
    apply bind_val_inv in H as (fin1 & m3 & Hok & H).
    apply bind_val_inv in H as ([fin2 fail2] & m4 & Herr & H).
    apply (IH _ _ _ H Hrest).
    assert (Hone : incl [job] all_jobs) by (intros x [<-|[]]; exact Hjob).
    assert (Hfin1 : incl fin1 all_jobs).
    { destruct (String.eqb state "ok"); inversion Hok; subst; [|exact Hfin].
      now apply incl_app. }
    destruct (String.eqb state "error"); inversion Herr; subst; [|exact Hfin1].
    now apply incl_app.
Qed.

Lemma wait_loop_finished_given (all_jobs : list job) (fuel : nat)
    (bound : option (list job * list job)) (job_list : list job) m
    (finished failed : list job) m' :
  wait_loop gi fuel bound job_list m = (Val (finished, failed), m') ->
  incl job_list all_jobs ->
  (forall r, bound = Some r -> incl (fst r) all_jobs) ->
  incl finished all_jobs.
Proof.
  revert bound job_list m.
  induction fuel as [|fuel IH]; intros bound job_list m H Hincl Hbound.
  - destruct job_list; simpl in H; [|discriminate].
    destruct bound as [r|]; inversion H; subst.
    now apply (Hbound (finished, failed)).
  - destruct job_list as [|j job_list].
    + simpl in H. destruct bound as [r|]; inversion H; subst.
      now apply (Hbound (finished, failed)).
    + cbn [wait_loop nonempty] in H.
      apply bind_val_inv in H as ([fin fail] & m1 & Hpoll & H).
      apply bind_val_inv in H as (job_list' & m2 & Hrem & H).
      apply bind_val_inv in H as (u & m3 & _ & H).
      unfold lift in Hrem. inversion Hrem as [[Hrem' Hm]].
      apply (IH _ _ _ H).
      * eapply incl_tran; [|exact Hincl]. now apply (remove_each_incl fin).
      * intros r Hr. inversion Hr; subst. simpl.
        apply (poll_jobs_finished_given _ _ _ _ _ _ _ _ Hpoll Hincl).
        apply incl_nil_l.
Qed.

(** X2: Both lists [wait] returns are made of jobs it was given. *)
Theorem wait_returns_given_jobs (fuel : nat) (job_list : list job) m
    (finished failed : list job) m' :
  wait gi fuel job_list m = (Val (finished, failed), m') ->
  incl finished job_list /\ incl failed job_list.
Proof.
  intros H.
  assert (Hfin : incl finished job_list).
  { apply (wait_loop_finished_given _ _ _ _ _ _ _ _ H (incl_refl _)).
    intros r Hr. discriminate Hr. }
  split; [exact Hfin|].
  eapply incl_tran; [|exact Hfin].
  apply (wait_loop_failed_in_finished gi _ _ _ _ _ _ _ H).
  intros r Hr. discriminate Hr.
Qed.

End PollerRequests.


(** ** The poller on servers that always or never finish *)

Lemma sleeps_app (t1 t2 : list event) : sleeps (t1 ++ t2) = sleeps t1 ++ sleeps t2.
Proof.
  induction t1 as [|e t1 IH]; [reflexivity|].
  destruct e; simpl; rewrite IH; reflexivity.
Qed.

Lemma py_remove_head (x : job) (l : list job) : py_remove x (x :: l) = Val l.
Proof. simpl. destruct (decide (x = x)); [reflexivity|congruence]. Qed.

Lemma remove_each_self (l : list job) : remove_each l l = Val [].
Proof.
  induction l as [|x l IH]; [reflexivity|].
  cbn [remove_each]. rewrite py_remove_head. exact IH.
Qed.

Section PollerEnds.

Context {W : Type} (gi : GalaxyInstance W).

(** One poll cycle over jobs that are all still pending classifies
    none of them. *)
Lemma poll_jobs_pending (jobs finished failed : list job) (m : machine W) :
  answers gi pending -> Forall has_output jobs ->
  exists m', poll_jobs gi jobs finished failed m = (Val (finished, failed), m')
    /\ sleeps (trace m') = sleeps (trace m).
Proof.
  intros Hgi Hout. revert m.
  induction Hout as [|job rest Hjob _ IH]; intros m.
  - exists m. now split.
  - unfold has_output in Hjob.
    destruct (outputs job) as [|o os] eqn:Ho; [congruence|].
    destruct (Hgi (out_id o) (world m)) as (state & w' & Hshow & Hnok & Hnerr).
    apply String.eqb_neq in Hnok, Hnerr.
    destruct (IH {| world := w';
                    trace := (trace m ++ [ShowDataset (out_id o)])
                             ++ [Log DEBUG (JobStillRunning (out_hid o))] |})
      as (m' & Hpoll & Hsleeps).
    exists m'. split.
    + cbn [poll_jobs]. unfold first_output, py_getitem. rewrite Ho.
      cbn [lookup list_lookup]. unfold bind at 1. unfold lift at 1.
      unfold bind at 1. unfold request at 1. rewrite Hshow.
      rewrite Hnok. unfold bind at 1. unfold ret at 1.
      rewrite Hnerr. unfold bind at 1. unfold bind at 1.
      unfold log, emit at 1. cbn [world trace]. unfold ret at 1.
      exact Hpoll.
    + rewrite Hsleeps. cbn [trace]. rewrite !sleeps_app. simpl.
      now rewrite !app_nil_r.
Qed.

(** X4: A job list whose datasets never reach ok or error is polled for
    ever: whatever the number of poll cycles allowed, [wait] has not
    returned by then, and it has slept 30 seconds after each cycle. *)
Theorem wait_never_gives_up (fuel : nat) (job_list : list job) (m : machine W) :
  answers gi pending -> Forall has_output job_list -> job_list <> [] ->
  fst (wait gi fuel job_list m) = OutOfFuel
  /\ sleeps (trace (snd (wait gi fuel job_list m)))
     = sleeps (trace m) ++ repeat 30%Z fuel.
Proof.
  intros Hgi Hout Hne. unfold wait. generalize (@None (list job * list job)).
  assert (Hn : nonempty job_list = true) by (destruct job_list; [congruence|reflexivity]).
  revert m. induction fuel as [|fuel IH]; intros m bound.
  - cbn [wait_loop]. rewrite Hn. simpl. now rewrite app_nil_r.
  - destruct (poll_jobs_pending job_list [] [] m Hgi Hout) as (m1 & Hpoll & Hs1).
    assert (Hstep : wait_loop gi (S fuel) bound job_list m =
      wait_loop gi fuel (Some ([], []))
        job_list {| world := gi_sleep gi 30 (world m1);
                    trace := trace m1 ++ [Sleep 30] |}).
    { cbn [wait_loop]. rewrite Hn.
      rewrite (bind_val _ _ _ _ _ Hpoll). cbn beta iota.
      cbn [remove_each]. unfold bind at 1. unfold lift at 1.
      rewrite Hn. unfold bind at 1. unfold sleep at 1. reflexivity. }
    rewrite Hstep.
    destruct (IH {| world := gi_sleep gi 30 (world m1);
                    trace := trace m1 ++ [Sleep 30] |} (Some ([], [])))
      as [Hres Hsl].
    split; [exact Hres|].
    rewrite Hsl. cbn [trace]. rewrite sleeps_app, Hs1. simpl.
    now rewrite <- app_assoc.
Qed.

End PollerEnds.


Section Steps.

Context {W : Type}.

Lemma bind_ret {A B} (a : A) (k : A -> M W B) m : bind (ret a) k m = k a m.
Proof. reflexivity. Qed.

Lemma bind_log {B} (level : loglevel) (msg : logmsg) (k : unit -> M W B) m :
  bind (log level msg) k m =
  k tt {| world := world m; trace := trace m ++ [Log level msg] |}.
Proof. reflexivity. Qed.

Lemma bind_bind {A B C} (c : M W A) (k1 : A -> M W B) (k2 : B -> M W C) m :
  bind (bind c k1) k2 m = bind c (fun a => bind (k1 a) k2) m.
Proof. unfold bind. destruct (c m) as [[a| | |] m1]; reflexivity. Qed.

Lemma request_val {A} (e : event) (f : W -> (exn + A) * W) m a w' :
  f (world m) = (inr a, w') ->
  request e f m = (Val a, {| world := w'; trace := trace m ++ [e] |}).
Proof. intros H. unfold request. now rewrite H. Qed.

Lemma request_raise {A} (e : event) (f : W -> (exn + A) * W) m x w' :
  f (world m) = (inl x, w') ->
  request e f m = (Raise x, {| world := w'; trace := trace m ++ [e] |}).
Proof. intros H. unfold request. now rewrite H. Qed.

End Steps.

Section PollerAtOnce.

Context {W : Type} (gi : GalaxyInstance W).

Lemma first_output_val (j : job) :
  has_output j -> exists o, first_output j = Val o /\ polled_dataset j = Some (out_id o).
Proof.
  unfold has_output, first_output, py_getitem, polled_dataset.
  destruct (outputs j) as [|o os]; [congruence|]. intros _. now exists o.
Qed.

(** One poll cycle over jobs that are all ok or in error classifies
    every one of them, in order. *)
Lemma poll_jobs_terminal (jobs finished failed : list job) (m : machine W) :
  answers gi terminal -> Forall has_output jobs ->
  exists failed' m',
    poll_jobs gi jobs finished failed m
      = (Val (finished ++ jobs, failed ++ failed'), m')
    /\ sleeps (trace m') = sleeps (trace m).
Proof.
  intros Hgi Hout. revert finished failed m.
  induction Hout as [|job rest Hjob _ IH]; intros finished failed m.
  - exists [], m. now rewrite !app_nil_r.
  - destruct (first_output_val job Hjob) as (o & Ho & _).
    destruct (Hgi (out_id o) (world m)) as (state & w' & Hshow & Hstate).
    cbn [poll_jobs]. rewrite (bind_lift_val _ _ _ _ Ho).
    rewrite (bind_val _ _ _ _ _ (request_val _ _ _ _ _ Hshow)).
    destruct Hstate as [-> | ->].
    + change (String.eqb "ok" "ok") with true.
      change (String.eqb "ok" "error") with false. cbn iota.
      rewrite bind_bind, bind_log, bind_ret, bind_bind, bind_log, bind_ret.
      cbn beta iota.
      match goal with |- context [poll_jobs gi rest ?f ?g ?mm] =>
        destruct (IH f g mm) as (failed' & m' & Hpoll & Hs) end.
      exists failed', m'. rewrite Hpoll, <- app_assoc. split; [reflexivity|].
      rewrite Hs. cbn [trace]. rewrite !sleeps_app. simpl. now rewrite !app_nil_r.
    + change (String.eqb "error" "ok") with false.
      change (String.eqb "error" "error") with true. cbn iota.
      rewrite bind_ret, bind_bind, bind_log, bind_ret. cbn beta iota.
      match goal with |- context [poll_jobs gi rest ?f ?g ?mm] =>
        destruct (IH f g mm) as (failed' & m' & Hpoll & Hs) end.
      exists (job :: failed'), m'. rewrite Hpoll, <- !app_assoc.
      split; [reflexivity|].
      rewrite Hs. cbn [trace]. rewrite !sleeps_app. simpl. now rewrite !app_nil_r.
Qed.

(** X5: When every job is ok or in error at the first poll, [wait] returns
    after that one cycle without sleeping, and its finished list is the
    whole job list in its order. *)
Theorem wait_returns_at_once (fuel : nat) (job_list : list job) (m : machine W) :
  answers gi terminal -> Forall has_output job_list -> job_list <> [] ->
  exists failed m',
    wait gi (S fuel) job_list m = (Val (job_list, failed), m')
    /\ sleeps (trace m') = sleeps (trace m).
Proof.
  intros Hgi Hout Hne.
  assert (Hn : nonempty job_list = true) by (destruct job_list; [congruence|reflexivity]).
  destruct (poll_jobs_terminal job_list [] [] m Hgi Hout) as (failed & m' & Hpoll & Hs).
  exists failed, m'. split; [|exact Hs].
  unfold wait. cbn [wait_loop]. rewrite Hn.
  rewrite (bind_val _ _ _ _ _ Hpoll). cbn beta iota. cbn [app].
  rewrite (bind_lift_val _ _ _ _ (remove_each_self job_list)).
  cbn [nonempty]. rewrite bind_ret. apply wait_loop_done.
Qed.

End PollerAtOnce.


(** ** Looking an entry up in a data table *)

Lemma py_index_first (l : list string) (x : string) (i : nat) :
  first_position l x i -> py_index l x = Val i.
Proof.
  revert i. induction l as [|y l IH]; intros i [Hi Hfirst].
  - destruct i; discriminate Hi.
  - simpl. destruct (String.eqb_spec y x) as [->|Hne].
    + destruct i as [|i]; [reflexivity|].
      exfalso. apply (Hfirst 0%nat); [lia|reflexivity].
    + destruct i as [|i]; [simpl in Hi; congruence|].
      rewrite (IH i); [reflexivity|]. split; [exact Hi|].
      intros j Hj. apply (Hfirst (S j)). lia.
Qed.

Lemma py_index_outcome (l : list string) (x : string) :
  (exists i, py_index l x = Val i /\ first_position l x i)
  \/ py_index l x = Raise (ValueError ("'" +:+ x +:+ "' is not in list")).
Proof.
  induction l as [|y l IH]; [now right|].
  simpl. destruct (String.eqb_spec y x) as [->|Hne].
  - left. exists 0%nat. split; [reflexivity|]. split; [reflexivity|]. intros j Hj. lia.
  - destruct IH as [(i & Hi & Hpos & Hfirst)| ->]; [|now right].
    left. exists (S i). rewrite Hi. split; [reflexivity|]. split; [exact Hpos|].
    intros [|j] Hj; simpl; [congruence|]. apply Hfirst. lia.
Qed.

Lemma scan_fields_outcome (rows : list (list string)) (i : nat) (entry : string) :
  (exists b, scan_fields rows i entry = Val b)
  \/ scan_fields rows i entry = Raise (IndexError "list index out of range").
Proof.
  induction rows as [|row rows IH]; [left; now exists false|].
  simpl. unfold py_getitem. destruct (row !! i) as [cell|]; simpl; [|now right].
  destruct (String.eqb cell entry); [left; now exists true|exact IH].
Qed.

Lemma scan_fields_found (rows : list (list string)) (i : nat) (entry : string) :
  Forall (fun row : list string => (i < length row)%nat) rows ->
  exists b, scan_fields rows i entry = Val b
    /\ (b = true <-> exists row, In row rows /\ row !! i = Some entry).
Proof.
  induction 1 as [|row rows Hrow _ IH].
  - exists false. split; [reflexivity|]. split; [discriminate|]. now intros (row & [] & _).
  - simpl. unfold py_getitem.
    destruct (lookup_lt_is_Some_2 row i Hrow) as [cell Hcell]. rewrite Hcell. simpl.
    destruct (String.eqb_spec cell entry) as [->|Hne].
    + exists true. split; [reflexivity|]. split; [|reflexivity].
      intros _. exists row. split; [now left|exact Hcell].
    + destruct IH as (b & Hb & Hiff). exists b. split; [exact Hb|].
      rewrite Hiff. split.
      * intros (r & Hr & Hre). exists r. split; [now right|exact Hre].
      * intros (r & [<-|Hr] & Hre); [congruence|]. now exists r.
Qed.

Section Lookup.

Context {W : Type} (gi : GalaxyInstance W).

(** X7: The exceptions [data_table_entry_exists] can raise are the one of
    line 78 for a failed request, the [ValueError] of [index] for a
    missing column, and the [IndexError] of a row that is too short;
    the exception of line 83 is never raised. *)
Theorem data_table_entry_exists_exceptions (data_table_name entry column : string)
    (m m' : machine W) (e : exn) :
  data_table_entry_exists gi data_table_name entry column m = (Raise e, m') ->
  (e = table_missing data_table_name
   \/ e = ValueError ("'" +:+ column +:+ "' is not in list")
   \/ e = IndexError "list index out of range")
  /\ e <> column_missing column data_table_name.
Proof.
  intros H.
  assert (Hcases : e = table_missing data_table_name
   \/ e = ValueError ("'" +:+ column +:+ "' is not in list")
   \/ e = IndexError "list index out of range").
  { unfold data_table_entry_exists, bind, try_except, request, lift in H.
    destruct (gi_show_data_table gi data_table_name (world m)) as [[x|t] w'];
      simpl in H.
    - inversion H. now left.
    - destruct (py_index_outcome (columns t) column) as [(i & Hi & _)|Hi];
        rewrite Hi in H; simpl in H.
      + destruct (scan_fields_outcome (fields t) i entry) as [(b & Hb)|Hb];
          rewrite Hb in H; inversion H. now right; right.
      + inversion H. now right; left. }
  split; [exact Hcases|].
  destruct Hcases as [-> | [-> | ->]]; discriminate.
Qed.

(** On a table the server has, with the column first at position [i],
    the lookup is the scan of the rows at that position, after one
    request. *)
Lemma lookup_scans_rows (data_table_name entry column : string)
    (m : machine W) (t : data_table) (w' : W) (i : nat) :
  gi_show_data_table gi data_table_name (world m) = (inr t, w') ->
  first_position (columns t) column i ->
  data_table_entry_exists gi data_table_name entry column m
  = (scan_fields (fields t) i entry,
     {| world := w'; trace := trace m ++ [ShowDataTable data_table_name] |}).
Proof.
  intros Hshow Hpos.
  unfold data_table_entry_exists, bind, try_except, request, lift.
  rewrite Hshow. simpl. rewrite (py_index_first _ _ _ Hpos). reflexivity.
Qed.

(** X8: for a table the server has, with the column first at position
    [i] and every row reaching that position, the lookup answers true
    exactly when some row has the entry in that cell; it makes one
    request. *)
Theorem data_table_entry_exists_correct (data_table_name entry column : string)
    (m : machine W) (t : data_table) (w' : W) (i : nat) :
  gi_show_data_table gi data_table_name (world m) = (inr t, w') ->
  first_position (columns t) column i ->
  rows_reach t i ->
  exists b,
    data_table_entry_exists gi data_table_name entry column m
      = (Val b, {| world := w'; trace := trace m ++ [ShowDataTable data_table_name] |})
    /\ (b = true <-> some_row_has t i entry).
Proof.
  intros Hshow Hpos Hrows.
  destruct (scan_fields_found (fields t) i entry Hrows) as (b & Hb & Hiff).
  exists b. split; [|exact Hiff].
  now rewrite (lookup_scans_rows _ _ _ _ _ _ _ Hshow Hpos), Hb.
Qed.

(** X9: the check stops at the first table that lacks the value entry:
    it answers false after that one request, whatever tables come after
    it in the list (they are not asked for, known or not) and without
    looking at the column name. *)
Theorem check_stops_at_first_miss (table_name : string) (rest : list string)
    (input_dict : gmap string string) (entry : string)
    (m : machine W) (t : data_table) (w' : W) (i : nat) :
  get_value_from_inputs input_dict = CStr entry ->
  entry <> "" ->
  gi_show_data_table gi table_name (world m) = (inr t, w') ->
  first_position (columns t) "value" i ->
  rows_reach t i ->
  ~ some_row_has t i entry ->
  input_entries_exist_in_data_tables gi (table_name :: rest) input_dict m
  = (Val false, {| world := w'; trace := trace m ++ [ShowDataTable table_name] |}).
Proof.
  intros Hvalue Hentry Hshow Hpos Hrows Hnone.
  assert (Htruthy : truthy (CStr entry) = true).
  { simpl. apply negb_true_iff. now apply String.eqb_neq. }
  destruct (scan_fields_found (fields t) i entry Hrows) as (b & Hb & Hiff).
  assert (b = false) as ->.
  { destruct b; [|reflexivity]. exfalso. apply Hnone. now apply Hiff. }
  unfold input_entries_exist_in_data_tables. rewrite Hvalue, Htruthy.
  cbn [negb andb check_data_tables]. unfold entry_passes at 1. rewrite Htruthy.
  rewrite (bind_val _ _ _ _ _
             (eq_trans (lookup_scans_rows _ _ _ _ _ _ _ Hshow Hpos)
                       (f_equal (fun r => (r, _)) Hb))).
  reflexivity.
Qed.

(** X11: With no data table to look into, an identifying input counts as
    already there: the check answers true without asking the server,
    and a data manager without [data_table_reload] is skipped when
    [overwrite] is off. *)
Theorem no_table_means_already_run (a : args) (dm : data_manager)
    (input_dict : gmap string string) (job_list : list job) (skipped : nat)
    (m : machine W) :
  truthy (get_value_from_inputs input_dict) = true
  \/ truthy (get_name_from_inputs input_dict) = true ->
  dm_data_table_reload dm = None ->
  overwrite a = false ->
  input_entries_exist_in_data_tables gi [] input_dict m = (Val true, m)
  /\ skip_or_dispatch gi a dm input_dict job_list skipped m =
     (Val (job_list, S skipped),
      {| world := world m;
         trace := trace m ++ [Log INFO (AlreadyRun (dm_id dm) input_dict)] |}).
Proof.
  intros Hid Hnone Hover.
  assert (Hcheck : input_entries_exist_in_data_tables gi [] input_dict m = (Val true, m)).
  { unfold input_entries_exist_in_data_tables.
    destruct Hid as [-> | ->]; simpl; [reflexivity|].
    now rewrite andb_false_r. }
  split; [exact Hcheck|].
  unfold skip_or_dispatch. rewrite Hnone. cbn [default].
  rewrite (bind_val _ _ _ _ _ Hcheck), Hover. reflexivity.
Qed.

(** X12: Keys other than name, sequence_name, value, sequence_id and dbkey
    have no part in the check: adding or changing one leaves both
    candidates and the whole check as they were. *)
Theorem other_keys_do_not_matter (data_tables : list string)
    (input_dict : gmap string string) (key value : string) (m : machine W) :
  ~ In key (name_keys ++ value_keys) ->
  get_name_from_inputs (<[key := value]> input_dict) = get_name_from_inputs input_dict
  /\ get_value_from_inputs (<[key := value]> input_dict) = get_value_from_inputs input_dict
  /\ input_entries_exist_in_data_tables gi data_tables (<[key := value]> input_dict) m
     = input_entries_exist_in_data_tables gi data_tables input_dict m.
Proof.
  intros Hkey.
  assert (Hn : get_name_from_inputs (<[key := value]> input_dict)
               = get_name_from_inputs input_dict).
  { unfold get_name_from_inputs, name_keys. simpl.
    rewrite !lookup_insert_ne; [reflexivity| |];
      intros ->; apply Hkey; simpl; tauto. }
  assert (Hv : get_value_from_inputs (<[key := value]> input_dict)
               = get_value_from_inputs input_dict).
  { unfold get_value_from_inputs, value_keys. simpl.
    rewrite !lookup_insert_ne; [reflexivity| | |];
      intros ->; apply Hkey; simpl; tauto. }
  split; [exact Hn|]. split; [exact Hv|].
  unfold input_entries_exist_in_data_tables. now rewrite Hn, Hv.
Qed.

End Lookup.


(** ** The idempotency check against tables that do not change *)

Lemma first_position_exists (l : list string) (x : string) :
  In x l -> exists i, first_position l x i /\ (i < length l)%nat.
Proof.
  intros Hin. destruct (py_index_outcome l x) as [(i & _ & Hpos)|Hraise].
  - exists i. split; [exact Hpos|]. destruct Hpos as [Hi _].
    now apply lookup_lt_Some in Hi.
  - exfalso. induction l as [|y l IH]; [contradiction|].
    simpl in Hraise. destruct (String.eqb_spec y x) as [->|Hne]; [discriminate|].
    destruct Hin as [->|Hin]; [congruence|].
    destruct (py_index l x); simpl in Hraise; try discriminate.
    now apply IH.
Qed.

Lemma first_position_unique (l : list string) (x : string) (i j : nat) :
  first_position l x i -> first_position l x j -> i = j.
Proof.
  intros [Hi Hfi] [Hj Hfj].
  destruct (Nat.lt_trichotomy i j) as [Hlt|[Heq|Hgt]]; [|exact Heq|].
  - exfalso. now apply (Hfj i).
  - exfalso. now apply (Hfi j).
Qed.

Section StaticTables.

Context {W : Type} (gi : GalaxyInstance W) (tables : string -> option data_table).

Lemma entry_passes_correct (table_name column : string) (t : data_table)
    (entry : candidate) (m : machine W) :
  serves gi tables -> tables table_name = Some t ->
  In column (columns t) ->
  Forall (fun row : list string => (length (columns t) <= length row)%nat) (fields t) ->
  exists b m',
    entry_passes gi table_name entry column m = (Val b, m')
    /\ world m' = world m
    /\ (b = true <-> candidate_in t column entry).
Proof.
  intros Hserves Ht Hcol Hrows.
  destruct entry as [|s].
  { exists true, m. simpl. repeat split; auto. }
  unfold entry_passes. destruct (truthy (CStr s)) eqn:Htruthy.
  - destruct (first_position_exists _ _ Hcol) as (i & Hpos & Hlt).
    assert (Hreach : rows_reach t i).
    { unfold rows_reach. eapply Forall_impl; [exact Hrows|]. simpl. intros row Hrow. lia. }
    destruct (scan_fields_found (fields t) i s Hreach) as (b & Hb & Hiff).
    exists b. eexists. split.
    { now rewrite (lookup_scans_rows gi _ _ _ _ _ _ _ (Hserves _ _ _ Ht) Hpos), Hb. }
    split; [reflexivity|].
    unfold candidate_in. rewrite Htruthy. split.
    + intros Hrow _. exists i. split; [exact Hpos|]. now apply Hiff.
    + intros Hhas. apply Hiff. destruct (Hhas eq_refl) as (j & Hj & Hrow).
      now rewrite (first_position_unique _ _ _ _ Hpos Hj).
  - exists true, m. repeat split; auto.
    unfold candidate_in. rewrite Htruthy. discriminate.
Qed.

Lemma check_data_tables_correct (value_entry name_entry : candidate)
    (data_tables : list string) (m : machine W) :
  serves gi tables ->
  (forall name, In name data_tables ->
     exists t, tables name = Some t /\ well_formed t) ->
  exists b m',
    check_data_tables gi value_entry name_entry data_tables m = (Val b, m')
    /\ world m' = world m
    /\ (b = true <->
        forall name t, In name data_tables -> tables name = Some t ->
          candidate_in t "value" value_entry /\ candidate_in t "name" name_entry).
Proof.
  intros Hserves. revert m.
  induction data_tables as [|tn rest IH]; intros m Hknown.
  { exists true, m. split; [reflexivity|]. split; [reflexivity|].
    split; [|reflexivity]. intros _ name t []. }
  destruct (Hknown tn (or_introl eq_refl)) as (t & Ht & Hvalue & Hname & Hrows).
  assert (Hrest : forall n, In n rest -> exists t, tables n = Some t /\ well_formed t).
  { intros n Hn. apply Hknown. now right. }
  destruct (entry_passes_correct tn "value" t value_entry m Hserves Ht Hvalue Hrows)
    as (v & m1 & Hv & Hw1 & Hviff).
  cbn [check_data_tables]. rewrite (bind_val _ _ _ _ _ Hv).
  destruct v; cbn [negb].
  - destruct (entry_passes_correct tn "name" t name_entry m1 Hserves Ht Hname Hrows)
      as (n & m2 & Hn & Hw2 & Hniff).
    rewrite (bind_val _ _ _ _ _ Hn).
    destruct n; cbn [negb].
    + destruct (IH m2 Hrest) as (b & m3 & Hb & Hw3 & Hbiff).
      exists b, m3. split; [exact Hb|]. split; [congruence|].
      destruct Hbiff as [Hb1 Hb2]. split.
      * intros Hb' n' t' [<-|Hin] Ht'; pose proof (Hb1 Hb') as Hall.
        -- rewrite Ht in Ht'. inversion Ht'; subst. split; [now apply Hviff|now apply Hniff].
        -- exact (Hall n' t' Hin Ht').
      * intros Hall. apply Hb2. intros n' t' Hin Ht'.
        exact (Hall n' t' (or_intror Hin) Ht').
    + exists false, m2. split; [reflexivity|]. split; [congruence|].
      split; [discriminate|]. intros Hall.
      destruct (Hall tn t (or_introl eq_refl) Ht) as [_ Hin].
      apply Hniff in Hin. discriminate.
  - exists false, m1. split; [reflexivity|]. split; [exact Hw1|].
    split; [discriminate|]. intros Hall.
    destruct (Hall tn t (or_introl eq_refl) Ht) as [Hin _].
    apply Hviff in Hin. discriminate.
Qed.

(** X13: Against a server whose listed tables are well formed and do not
    change, the idempotency check returns, leaves the server as it was,
    and answers true exactly when the inputs have a candidate that
    counts and every listed table has the value candidate in its column
    value and the name candidate in its column name. *)
Theorem check_answers_whether_entries_exist (data_tables : list string)
    (input_dict : gmap string string) (m : machine W) :
  serves gi tables ->
  (forall name, In name data_tables ->
     exists t, tables name = Some t /\ well_formed t) ->
  exists b m',
    input_entries_exist_in_data_tables gi data_tables input_dict m = (Val b, m')
    /\ world m' = world m
    /\ (b = true <->
        (truthy (get_value_from_inputs input_dict) = true
         \/ truthy (get_name_from_inputs input_dict) = true)
        /\ forall name t, In name data_tables -> tables name = Some t ->
             candidate_in t "value" (get_value_from_inputs input_dict)
             /\ candidate_in t "name" (get_name_from_inputs input_dict)).
Proof.
  intros Hserves Hknown. unfold input_entries_exist_in_data_tables.
  destruct (truthy (get_value_from_inputs input_dict)) eqn:Hv;
    destruct (truthy (get_name_from_inputs input_dict)) eqn:Hn; cbn [negb andb].
  4: { exists false, m. repeat split; try discriminate.
       intros [[H|H] _]; discriminate. }
  all: destruct (check_data_tables_correct (get_value_from_inputs input_dict)
         (get_name_from_inputs input_dict) data_tables m Hserves Hknown)
      as (b & m' & Hb & Hw & Hiff);
    exists b, m'; split; [exact Hb|]; split; [exact Hw|];
    destruct Hiff as [Hi1 Hi2];
    split; [intros H; split; [auto|exact (Hi1 H)]|intros [_ H]; exact (Hi2 H)].
Qed.

End StaticTables.


(** ** Skipping and dispatching along a run *)

Lemma dispatched_app (t1 t2 : list event) :
  dispatched (t1 ++ t2) = dispatched t1 ++ dispatched t2.
Proof.
  induction t1 as [|e t1 IH]; [reflexivity|].
  destruct e; simpl; rewrite IH; reflexivity.
Qed.

Lemma check_events_dispatch_nothing (data_tables : list string) (es : list event) :
  Forall (check_event data_tables) es -> dispatched es = [].
Proof.
  induction 1 as [|e es He _ IH]; [reflexivity|].
  destruct e; simpl in *; try contradiction. exact IH.
Qed.

Section Accounting.

Context {W : Type} (gi : GalaxyInstance W) (json : Json).

Lemma check_dispatches_nothing (data_tables : list string)
    (input_dict : gmap string string) (m m' : machine W) (r : res bool) :
  input_entries_exist_in_data_tables gi data_tables input_dict m = (r, m') ->
  dispatched (trace m') = dispatched (trace m).
Proof.
  intros H. unfold input_entries_exist_in_data_tables in H.
  destruct (negb (truthy (get_value_from_inputs input_dict))
            && negb (truthy (get_name_from_inputs input_dict))).
  - inversion H. reflexivity.
  - destruct (check_data_tables_emits gi data_tables data_tables
                (get_value_from_inputs input_dict)
                (get_name_from_inputs input_dict) (incl_refl _) m)
      as (es & Ht & Hes).
    rewrite H in Ht. simpl in Ht. rewrite Ht, dispatched_app.
    rewrite (check_events_dispatch_nothing _ _ Hes). now rewrite app_nil_r.
Qed.

Lemma request_val_inv {A} (e : event) (f : W -> (exn + A) * W) m a m' :
  request e f m = (Val a, m') -> trace m' = trace m ++ [e].
Proof.
  unfold request. destruct (f (world m)) as [[x|a'] w']; intros H; inversion H.
  reflexivity.
Qed.

(** One item: either the skip counter grows by one and nothing is
    dispatched, or one job is requested for this data manager and added
    to the job list. *)
Lemma skip_or_dispatch_accounts (a : args) (dm : data_manager)
    (inputs : gmap string string) (job_list job_list' : list job)
    (skipped skipped' : nat) (m m' : machine W) :
  skip_or_dispatch gi a dm inputs job_list skipped m
    = (Val (job_list', skipped'), m') ->
  (job_list' = job_list /\ skipped' = S skipped
   /\ dispatched (trace m') = dispatched (trace m))
  \/ ((exists job, job_list' = job_list ++ [job]) /\ skipped' = skipped
      /\ dispatched (trace m') = dispatched (trace m) ++ [dm_id dm]).
Proof.
  unfold skip_or_dispatch. intros H.
  apply bind_val_inv in H as (present & m1 & Hcheck & H).
  apply check_dispatches_nothing in Hcheck.
  destruct (present && negb (overwrite a)).
  - left. rewrite bind_log in H. inversion H; subst. cbn [trace].
    rewrite dispatched_app, Hcheck. simpl. now rewrite app_nil_r.
  - right. unfold dispatch in H.
    apply bind_val_inv in H as (job & m2 & Hreq & H).
    apply request_val_inv in Hreq.
    apply bind_val_inv in H as (o & m3 & Ho & H).
    unfold lift in Ho. inversion Ho; subst m3.
    rewrite bind_log in H. inversion H; subst. cbn [trace].
    split; [now exists job|]. split; [reflexivity|].
    rewrite dispatched_app, Hreq, dispatched_app, Hcheck. simpl.
    now rewrite app_nil_r.
Qed.

(** X14: Along the items of a step every item is either skipped or
    dispatched, never both and never neither: the jobs added to the job
    list are as many as the requests made for this data manager, and
    together with the skips they are as many as the items. *)
Theorem every_item_skipped_or_dispatched (a : args) (dm : data_manager)
    (items : list pyval) (job_list job_list' : list job)
    (skipped skipped' : nat) (m m' : machine W) :
  items_loop gi a dm items job_list skipped m = (Val (job_list', skipped'), m') ->
  exists n,
    dispatched (trace m') = dispatched (trace m) ++ repeat (dm_id dm) n
    /\ length job_list' = (length job_list + n)%nat
    /\ (skipped' + n = skipped + length items)%nat.
Proof.
  revert job_list skipped m.
  induction items as [|item rest IH]; intros job_list skipped m H.
  - inversion H; subst. exists 0%nat. simpl. rewrite app_nil_r. repeat split; lia.
  - cbn [items_loop] in H.
    apply bind_val_inv in H as (inputs & m1 & Hin & H).
    unfold lift in Hin. inversion Hin; subst m1.
    apply bind_val_inv in H as ([jl sk] & m2 & Hitem & H).
    apply IH in H as (n & Htrace & Hjobs & Hskips).
    apply skip_or_dispatch_accounts in Hitem
      as [(-> & -> & Hd)|([job ->] & -> & Hd)].
    + exists n. rewrite Htrace, Hd. simpl. repeat split; lia.
    + exists (S n). rewrite Htrace, Hd, <- app_assoc.
      rewrite length_app in Hjobs. simpl in *. repeat split; lia.
Qed.

Lemma skip_or_dispatch_overwrite (a : args) (dm : data_manager)
    (inputs : gmap string string) (job_list job_list' : list job)
    (skipped skipped' : nat) (m m' : machine W) :
  overwrite a = true ->
  skip_or_dispatch gi a dm inputs job_list skipped m
    = (Val (job_list', skipped'), m') ->
  skipped' = skipped /\ length job_list' = S (length job_list).
Proof.
  intros Hover H. unfold skip_or_dispatch in H.
  apply bind_val_inv in H as (present & m1 & _ & H).
  rewrite Hover, andb_false_r in H. unfold dispatch in H.
  apply bind_val_inv in H as (job & m2 & _ & H).
  apply bind_val_inv in H as (o & m3 & _ & H).
  rewrite bind_log in H. inversion H; subst.
  split; [reflexivity|]. rewrite length_app. simpl. lia.
Qed.

Lemma items_loop_overwrite (a : args) (dm : data_manager) (items : list pyval)
    (job_list job_list' : list job) (skipped skipped' : nat) (m m' : machine W) :
  overwrite a = true ->
  items_loop gi a dm items job_list skipped m = (Val (job_list', skipped'), m') ->
  skipped' = skipped /\ length job_list' = (length job_list + length items)%nat.
Proof.
  intros Hover. revert job_list skipped m.
  induction items as [|item rest IH]; intros job_list skipped m H.
  - inversion H; subst. simpl. split; lia.
  - cbn [items_loop] in H.
    apply bind_val_inv in H as (inputs & m1 & _ & H).
    apply bind_val_inv in H as ([jl sk] & m2 & Hitem & H).
    apply IH in H as [-> Hlen].
    apply (skip_or_dispatch_overwrite _ _ _ _ _ _ _ _ _ Hover) in Hitem as [-> Hjl].
    simpl. split; lia.
Qed.

Lemma steps_loop_overwrite (fuel : nat) (a : args) (genomes : pyval)
    (dms : list data_manager) (t t' : totals) (m m' : machine W) :
  overwrite a = true ->
  steps_loop gi json fuel a genomes dms t m = (Val t', m') ->
  number_skipped_jobs t' = number_skipped_jobs t.
Proof.
  intros Hover. revert t m. induction dms as [|dm rest IH]; intros t m H.
  - now inversion H.
  - cbn [steps_loop] in H.
    apply bind_val_inv in H as (t1 & m1 & Hstep & H).
    apply IH in H. rewrite H. unfold run_step in Hstep.
    apply bind_val_inv in Hstep as (items & m2 & _ & Hstep).
    apply bind_val_inv in Hstep as (item_list & m3 & _ & Hstep).
    apply bind_val_inv in Hstep as ([jl sk] & m4 & Hitems & Hstep).
    apply bind_val_inv in Hstep as ([fin fail] & m5 & _ & Hstep).
    apply bind_val_inv in Hstep as (u & m6 & _ & Hstep).
    inversion Hstep; subst. simpl.
    now apply (items_loop_overwrite _ _ _ _ _ _ _ _ _ Hover) in Hitems as [-> _].
Qed.

(** X15: With [overwrite] set no item is ever skipped, whatever the
    data tables hold: a run that ends well reports 0 skipped jobs. *)
Theorem overwrite_never_skips (fuel : nat) (a : args) (conf : config)
    (m m' : machine W) (s : job_summary) :
  overwrite a = true ->
  run_dm gi json fuel a conf m = (Val s, m') ->
  skipped_jobs s = 0%nat.
Proof.
  intros Hover H. unfold run_dm in H.
  apply bind_val_inv in H as (u & m0 & _ & H).
  destruct (conf_data_managers conf) as [dms|]; [|discriminate].
  apply bind_val_inv in H as (t & m1 & Hsteps & H).
  inversion H; subst. simpl.
  now apply (steps_loop_overwrite _ _ _ _ _ _ _ _ Hover) in Hsteps.
Qed.

(** X18: A step none of whose items is dispatched (all skipped, or no item
    at all) ends the run: [wait] is called on the empty job list and its
    [UnboundLocalError] is not caught. *)
Theorem step_without_jobs_ends_run (fuel : nat) (a : args) (conf : config)
    (dms_before dms_after : list data_manager) (dm : data_manager)
    (t : totals) (items : pyval) (item_list : list pyval) (skipped : nat)
    (m m0 m1 m2 : machine W) :
  conf_data_managers conf = Some (dms_before ++ dm :: dms_after) ->
  connect gi m = (Val tt, m0) ->
  steps_loop gi json fuel a (genomes_of conf) dms_before no_totals m0
    = (Val t, m1) ->
  parse_items json (default (PList [PStr ""]) (dm_items dm)) (genomes_of conf)
    = Val items ->
  py_iter items = Val item_list ->
  items_loop gi a dm item_list [] (number_skipped_jobs t) m1
    = (Val ([], skipped), m2) ->
  run_dm gi json fuel a conf m = (Raise (UnboundLocalError "finished_jobs"), m2).
Proof.
  intros Hconf Hconnect Hsteps Hparse Hiter Hitems.
  eapply step_raise_ends_run; eauto.
  unfold run_step.
  rewrite (bind_lift_val _ _ _ _ Hparse), (bind_lift_val _ _ _ _ Hiter).
  rewrite (bind_val _ _ _ _ _ Hitems). cbn beta iota.
  apply bind_raise. unfold wait. destruct fuel; reflexivity.
Qed.

End Accounting.


(** ** Rendering parameters and items *)

Lemma append_cons (c : ascii) (a b : string) :
  String c a +:+ b = String c (a +:+ b).
Proof. reflexivity. Qed.

Lemma append_empty_r (s : string) : s +:+ "" = s.
Proof. induction s as [|c s IH]; [reflexivity|]. now rewrite append_cons, IH. Qed.

Lemma append_assoc (a b c : string) : (a +:+ b) +:+ c = a +:+ (b +:+ c).
Proof. induction a as [|x a IH]; [reflexivity|]. now rewrite !append_cons, IH. Qed.

Lemma chars_append (a b : string) :
  list_ascii_of_string (a +:+ b) = list_ascii_of_string a ++ list_ascii_of_string b.
Proof.
  induction a as [|x a IH]; [reflexivity|].
  rewrite append_cons. simpl. now rewrite IH.
Qed.

Lemma snoc_char_append (acc : string) (c : ascii) (s : string) :
  snoc_char acc c +:+ s = acc +:+ String c s.
Proof. unfold snoc_char. now rewrite append_assoc. Qed.

(** Text without an opening brace is one piece of data. *)
Lemma lex_data (src acc : string) :
  forallb (fun c => negb (Ascii.eqb c "{")) (list_ascii_of_string src) = true ->
  lex false acc src = Val [Data (acc +:+ src)].
Proof.
  revert acc. induction src as [|c src IH]; intros acc H.
  - simpl. now rewrite append_empty_r.
  - simpl in H. apply andb_true_iff in H as [Hc H].
    apply negb_true_iff in Hc.
    destruct src as [|c2 src].
    + rewrite lex_one. reflexivity.
    + rewrite lex_two, Hc. cbn [andb]. rewrite (IH _ H).
      now rewrite snoc_char_append.
Qed.

(** Text without an opening brace, then an opening [{{]. *)
Lemma lex_data_then_print (pre acc rest : string) :
  forallb (fun c => negb (Ascii.eqb c "{")) (list_ascii_of_string pre) = true ->
  lex false acc (pre +:+ String "{" (String "{" rest)) =
  res_bind (lex true "" rest) (fun segs => Val (Data (acc +:+ pre) :: segs)).
Proof.
  revert acc. induction pre as [|c pre IH]; intros acc H.
  - simpl. now rewrite append_empty_r.
  - simpl in H. apply andb_true_iff in H as [Hc H].
    apply negb_true_iff in Hc.
    change (String c pre +:+ String "{" (String "{" rest))
      with (String c (pre +:+ String "{" (String "{" rest))).
    destruct pre as [|c2 pre].
    + pose proof (IH (snoc_char acc c) H) as IH'.
      change ("" +:+ String "{" (String "{" rest))
        with (String "{" (String "{" rest)) in *.
      rewrite lex_two, Hc. cbn [andb]. rewrite IH'.
      now rewrite snoc_char_append.
    + change (String c2 pre +:+ String "{" (String "{" rest))
        with (String c2 (pre +:+ String "{" (String "{" rest))).
      rewrite lex_two, Hc. cbn [andb].
      change (String c2 (pre +:+ String "{" (String "{" rest)))
        with (String c2 pre +:+ String "{" (String "{" rest)).
      rewrite (IH (snoc_char acc c) H).
      now rewrite snoc_char_append.
Qed.

Lemma plain_no_brace (s : string) :
  plain s = true ->
  forallb (fun c => negb (Ascii.eqb c "{")) (list_ascii_of_string s) = true.
Proof.
  unfold plain. induction (list_ascii_of_string s) as [|c l IH]; [reflexivity|].
  simpl. intros H. apply andb_true_iff in H as [Hc H].
  apply andb_true_iff in Hc as [Hc _]. now rewrite Hc, IH.
Qed.

Lemma plain_no_line_break (s : string) :
  plain s = true -> existsb is_line_break (list_ascii_of_string s) = false.
Proof.
  unfold plain. induction (list_ascii_of_string s) as [|c l IH]; [reflexivity|].
  simpl. intros H. apply andb_true_iff in H as [Hc H].
  apply andb_true_iff in Hc as [_ Hc]. apply negb_true_iff in Hc.
  now rewrite Hc, IH.
Qed.

(** Plain text is a template that renders to itself in any context. *)
Lemma resolve_plain (source : string) (context : gmap string pyval) :
  plain source = true -> resolve source context = Val source.
Proof.
  intros H. unfold resolve, Template.
  rewrite (plain_no_line_break _ H), (lex_data _ _ (plain_no_brace _ H)).
  simpl. now rewrite append_empty_r.
Qed.

(** X21: The loop over [params] replaces [{{item}}] (also written
    [{{ item }}]) by the item: a value made of plain text around one
    such reference renders to the same text around the item. *)
Theorem item_reference_is_replaced (pre post item : string) :
  plain pre = true -> plain post = true ->
  resolve (pre +:+ "{{item}}" +:+ post) {[ "item" := PStr item ]}
    = Val (pre +:+ item +:+ post)
  /\ resolve (pre +:+ "{{ item }}" +:+ post) {[ "item" := PStr item ]}
    = Val (pre +:+ item +:+ post).
Proof.
  intros Hpre Hpost.
  assert (Hbreak : forall mid, existsb is_line_break (list_ascii_of_string mid) = false ->
    existsb is_line_break (list_ascii_of_string (pre +:+ mid +:+ post)) = false).
  { intros mid Hmid. rewrite !chars_append, !existsb_app, Hmid.
    now rewrite (plain_no_line_break _ Hpre), (plain_no_line_break _ Hpost). }
  split; unfold resolve, Template; rewrite Hbreak by reflexivity.
  - change ("{{item}}" +:+ post) with (String "{" (String "{" ("item}}" +:+ post))).
    rewrite (lex_data_then_print _ _ _ (plain_no_brace _ Hpre)).
    change (lex true "" ("item}}" +:+ post))
      with (res_bind (lex false "" post) (fun segs => Val (Output "item" :: segs))).
    rewrite (lex_data _ _ (plain_no_brace _ Hpost)). simpl.
    now rewrite append_empty_r.
  - change ("{{ item }}" +:+ post) with (String "{" (String "{" (" item }}" +:+ post))).
    rewrite (lex_data_then_print _ _ _ (plain_no_brace _ Hpre)).
    change (lex true "" (" item }}" +:+ post))
      with (res_bind (lex false "" post) (fun segs => Val (Output "item" :: segs))).
    rewrite (lex_data _ _ (plain_no_brace _ Hpost)). simpl.
    now rewrite append_empty_r.
Qed.

(** X22: Parameters whose values are plain text go to the tool as they are,
    whatever the item: each param dict gives its first key and value,
    and a key given again replaces the earlier value. *)
Theorem plain_params_pass_unchanged (params : list (list (string * string)))
    (item : pyval) (inputs : gmap string string) :
  Forall (fun param => exists key value rest,
            param = (key, value) :: rest /\ plain value = true) params ->
  build_inputs params item inputs = Val (fold_left update_with params inputs).
Proof.
  intros H. revert inputs.
  induction H as [|param params (key & value & rest & -> & Hplain) _ IH];
    intros inputs; [reflexivity|].
  cbn [build_inputs fold_left update_with]. unfold py_getitem. simpl.
  rewrite (resolve_plain _ _ Hplain). simpl. apply IH.
Qed.

(** X23: With reference keys but items whose JSON text is plain, nothing is
    substituted: the items are what [json.loads] makes of their own
    JSON text once quotes at both ends are stripped. *)
Theorem parse_items_without_references (json : Json) (items genomes : pyval) :
  py_bool genomes = true ->
  plain (json_dumps json items) = true ->
  parse_items json items genomes =
  of_sum (json_loads json (py_strip dquote (json_dumps json items))).
Proof.
  intros Hg Hplain. unfold parse_items. rewrite Hg.
  now rewrite (resolve_plain _ _ Hplain).
Qed.


(** ** What the summary can and cannot say *)

Section Summary.

Context {W : Type} (gi : GalaxyInstance W) (json : Json).

Lemma poll_jobs_lengths (jobs finished failed : list job) m
    (finished' failed' : list job) m' :
  poll_jobs gi jobs finished failed m = (Val (finished', failed'), m') ->
  (length failed <= length finished)%nat ->
  (length failed' <= length finished')%nat.
Proof.
  revert finished failed m.
  induction jobs as [|job rest IH]; intros finished failed m H Hle.
  - inversion H; subst. exact Hle.
  - simpl in H.
    apply bind_val_inv in H as (o & m1 & _ & H).
    apply bind_val_inv in H as (state & m2 & _ & H).
    apply bind_val_inv in H as (fin1 & m3 & Hok & H).
    apply bind_val_inv in H as ([fin2 fail2] & m4 & Herr & H).
    apply (IH _ _ _ H).
    assert (Hfin1 : (length finished <= length fin1)%nat).
    { destruct (String.eqb state "ok"); inversion Hok; subst; [|lia].
      rewrite length_app. simpl. lia. }
    destruct (String.eqb state "error"); inversion Herr; subst; [|lia].
    rewrite !length_app. simpl. lia.
Qed.

Lemma wait_loop_lengths (fuel : nat) (bound : option (list job * list job))
    (job_list : list job) m (finished failed : list job) m' :
  wait_loop gi fuel bound job_list m = (Val (finished, failed), m') ->
  (forall r, bound = Some r -> (length (snd r) <= length (fst r))%nat) ->
  (length failed <= length finished)%nat.
Proof.
  revert bound job_list m.
  induction fuel as [|fuel IH]; intros bound job_list m H Hbound.
  - destruct job_list; simpl in H; [|discriminate].
    destruct bound as [r|]; inversion H; subst.
    now apply (Hbound (finished, failed)).
  - destruct job_list as [|j job_list].
    + simpl in H. destruct bound as [r|]; inversion H; subst.
      now apply (Hbound (finished, failed)).
    + cbn [wait_loop nonempty] in H.
      apply bind_val_inv in H as ([fin fail] & m1 & Hpoll & H).
      apply bind_val_inv in H as (job_list' & m2 & _ & H).
      apply bind_val_inv in H as (u & m3 & _ & H).
      apply (IH _ _ _ H). intros r Hr. inversion Hr; subst. simpl.
      apply (poll_jobs_lengths _ _ _ _ _ _ _ Hpoll). simpl. lia.
Qed.

Lemma run_step_lists (fuel : nat) (a : args) (genomes : pyval)
    (dm : data_manager) (t t' : totals) (m m' : machine W) :
  run_step gi json fuel a genomes dm t m = (Val t', m') ->
  exists finished failed,
    all_finished_jobs t' = all_finished_jobs t ++ finished
    /\ all_failed_jobs t' = all_failed_jobs t ++ failed
    /\ (length failed <= length finished)%nat
    /\ (failed <> [] -> ignore_errors a = true).
Proof.
  unfold run_step. intros H.
  apply bind_val_inv in H as (items & m1 & _ & H).
  apply bind_val_inv in H as (item_list & m2 & _ & H).
  apply bind_val_inv in H as ([jl sk] & m3 & _ & H).
  apply bind_val_inv in H as ([fin fail] & m4 & Hwait & H).
  apply bind_val_inv in H as (u & m5 & Hpolicy & H).
  inversion H; subst; simpl.
  exists fin, fail. split; [reflexivity|]. split; [reflexivity|]. split.
  - apply (wait_loop_lengths _ _ _ _ _ _ _ Hwait). intros r Hr. discriminate Hr.
  - intros Hne. unfold failure_policy in Hpolicy.
    destruct fail; [congruence|]. simpl in Hpolicy.
    destruct (ignore_errors a); [reflexivity|discriminate].
Qed.

(** X16: along the steps the skip counter never goes down and the two
    job lists are only added to at their end: what a step has counted
    no later step takes back or reorders. *)
Theorem totals_only_grow (fuel : nat) (a : args) (genomes : pyval)
    (dms : list data_manager) (t t' : totals) (m m' : machine W) :
  steps_loop gi json fuel a genomes dms t m = (Val t', m') ->
  (number_skipped_jobs t <= number_skipped_jobs t')%nat
  /\ (exists finished, all_finished_jobs t' = all_finished_jobs t ++ finished)
  /\ (exists failed, all_failed_jobs t' = all_failed_jobs t ++ failed).
Proof.
  revert t m. induction dms as [|dm rest IH]; intros t m H.
  - inversion H; subst. split; [lia|]. split; exists []; now rewrite app_nil_r.
  - cbn [steps_loop] in H.
    apply bind_val_inv in H as (t1 & m1 & Hstep & H).
    apply IH in H as (Hs & [fin Hfin] & [fail Hfail]).
    apply run_step_counts_grow in Hstep as (Hs1 & [fin1 Hfin1] & [fail1 Hfail1]).
    split; [lia|]. split.
    + exists (fin1 ++ fin). now rewrite Hfin, Hfin1, app_assoc.
    + exists (fail1 ++ fail). now rewrite Hfail, Hfail1, app_assoc.
Qed.

Lemma steps_loop_lists (fuel : nat) (a : args) (genomes : pyval)
    (dms : list data_manager) (t t' : totals) (m m' : machine W) :
  steps_loop gi json fuel a genomes dms t m = (Val t', m') ->
  ((length (all_failed_jobs t) <= length (all_finished_jobs t))%nat ->
   (length (all_failed_jobs t') <= length (all_finished_jobs t'))%nat)
  /\ (ignore_errors a = false ->
      length (all_failed_jobs t') = length (all_failed_jobs t)).
Proof.
  revert t m. induction dms as [|dm rest IH]; intros t m H.
  - inversion H; subst. split; auto.
  - cbn [steps_loop] in H.
    apply bind_val_inv in H as (t1 & m1 & Hstep & H).
    apply IH in H as [Hle Hsame].
    apply run_step_lists in Hstep as (fin & fail & Hfin & Hfail & Hlen & Hign).
    split.
    + intros Ht. apply Hle. rewrite Hfin, Hfail, !length_app. lia.
    + intros Hoff. rewrite (Hsame Hoff), Hfail.
      destruct fail as [|j fail]; [now rewrite app_nil_r|].
      rewrite Hign in Hoff; [discriminate|discriminate].
Qed.

(** X17: in the summary of a run that ends well the failed jobs are
    never more than the finished jobs (a failed job is counted under
    both), and when errors are not ignored the summary has no failed
    job at all. *)
Theorem summary_failed_within_finished (fuel : nat) (a : args) (conf : config)
    (m m' : machine W) (s : job_summary) :
  run_dm gi json fuel a conf m = (Val s, m') ->
  (failed_jobs s <= finished_jobs s)%nat
  /\ (ignore_errors a = false -> failed_jobs s = 0%nat).
Proof.
  intros H. unfold run_dm in H.
  apply bind_val_inv in H as (u & m0 & _ & H).
  destruct (conf_data_managers conf) as [dms|]; [|discriminate].
  apply bind_val_inv in H as (t & m1 & Hsteps & H).
  inversion H; subst. simpl.
  apply steps_loop_lists in Hsteps as [Hle Hsame]. split.
  - apply Hle. simpl. lia.
  - intros Hoff. now rewrite (Hsame Hoff).
Qed.

End Summary.


(** ** The properties on the scripted server *)

Lemma scripted_answers (state : string) (tables : string -> option data_table)
    (P : string -> Prop) :
  P state -> answers (scripted (always state) tables) P.
Proof. intros HP id w. exists state, w. now split. Qed.

Lemma scripted_serves (states : nat -> string -> string)
    (tables : string -> option data_table) :
  serves (scripted states tables) tables.
Proof. intros name t w Ht. simpl. now rewrite Ht. Qed.

Lemma handles_have_outputs : Forall has_output handles.
Proof. repeat constructor; discriminate. Qed.

Lemma all_fasta_well_formed : well_formed all_fasta.
Proof.
  split; [simpl; tauto|]. split; [simpl; tauto|].
  repeat constructor.
Qed.

Lemma wait_failed_in_finished_witness :
  incl [job_number 1] [job_number 0; job_number 1].
Proof.
  apply (wait_failed_in_finished (scripted polling_states no_tables) 2 handles
           start [job_number 0; job_number 1] [job_number 1]
           (snd (wait (scripted polling_states no_tables) 2 handles start))).
  reflexivity.
Defined.

Lemma wait_returns_given_jobs_witness :
  incl [job_number 0; job_number 1] handles /\ incl [job_number 1] handles.
Proof.
  apply (wait_returns_given_jobs (scripted polling_states no_tables) 2 handles
           start [job_number 0; job_number 1] [job_number 1]
           (snd (wait (scripted polling_states no_tables) 2 handles start))).
  reflexivity.
Defined.

Lemma wait_never_gives_up_witness :
  fst (wait (scripted (always "running") no_tables) 3 handles start) = OutOfFuel
  /\ sleeps (trace (snd (wait (scripted (always "running") no_tables) 3 handles start)))
     = sleeps (trace start) ++ repeat 30%Z 3.
Proof.
  apply (wait_never_gives_up (scripted (always "running") no_tables) 3 handles start).
  - apply scripted_answers. split; discriminate.
  - exact handles_have_outputs.
  - discriminate.
Defined.

Lemma wait_returns_at_once_witness :
  exists failed m',
    wait (scripted (always "ok") no_tables) 1 handles start
      = (Val (handles, failed), m')
    /\ sleeps (trace m') = sleeps (trace start).
Proof.
  apply (wait_returns_at_once (scripted (always "ok") no_tables) 0 handles start).
  - apply scripted_answers. now left.
  - exact handles_have_outputs.
  - discriminate.
Defined.

Lemma data_table_entry_exists_exceptions_witness :
  (table_missing "no_such_table" = table_missing "no_such_table"
   \/ table_missing "no_such_table" = ValueError ("'" +:+ "value" +:+ "' is not in list")
   \/ table_missing "no_such_table" = IndexError "list index out of range")
  /\ table_missing "no_such_table" <> column_missing "value" "no_such_table".
Proof.
  apply (data_table_entry_exists_exceptions (scripted (always "ok") only_all_fasta)
           "no_such_table" "hg19" "value" start
           {| world := (0, 0)%nat; trace := [ShowDataTable "no_such_table"] |}).
  reflexivity.
Defined.

Lemma data_table_entry_exists_correct_witness :
  exists b,
    data_table_entry_exists (scripted (always "ok") only_all_fasta)
      "all_fasta" "hg19" "value" start
      = (Val b, {| world := (0, 0)%nat;
                   trace := trace start ++ [ShowDataTable "all_fasta"] |})
    /\ (b = true <-> some_row_has all_fasta 0 "hg19").
Proof.
  apply (data_table_entry_exists_correct (scripted (always "ok") only_all_fasta)
           "all_fasta" "hg19" "value" start all_fasta (0, 0)%nat 0%nat).
  - reflexivity.
  - split; [reflexivity|]. intros j Hj. lia.
  - repeat constructor.
Defined.

Lemma missing_column_raises_witness :
  data_table_entry_exists (scripted (always "ok") (fun _ => Some nameless))
    "all_fasta" "Human" "name" start
  = (Raise (ValueError ("'" +:+ "name" +:+ "' is not in list")),
     {| world := (0, 0)%nat; trace := trace start ++ [ShowDataTable "all_fasta"] |}).
Proof.
  apply (missing_column_raises (scripted (always "ok") (fun _ => Some nameless))
           "all_fasta" "Human" "name" start nameless (0, 0)%nat).
  - reflexivity.
  - simpl. intros [H|[H|[]]]; discriminate H.
Defined.

Lemma no_table_means_already_run_witness :
  input_entries_exist_in_data_tables (scripted (always "ok") no_tables) []
    {[ "dbkey" := "hg38" ]} start = (Val true, start)
  /\ skip_or_dispatch (scripted (always "ok") no_tables) example_args
       tableless_step {[ "dbkey" := "hg38" ]} [] 0 start =
     (Val ([], 1%nat),
      {| world := world start;
         trace := trace start
                  ++ [Log INFO (AlreadyRun (dm_id tableless_step) {[ "dbkey" := "hg38" ]})] |}).
Proof.
  apply (no_table_means_already_run (scripted (always "ok") no_tables)
           example_args tableless_step {[ "dbkey" := "hg38" ]} [] 0%nat start).
  - left. reflexivity.
  - reflexivity.
  - reflexivity.
Defined.

Lemma other_keys_do_not_matter_witness :
  get_name_from_inputs (<["url" := "http://example.org"]> {[ "dbkey" := "hg19" ]})
    = get_name_from_inputs {[ "dbkey" := "hg19" ]}
  /\ get_value_from_inputs (<["url" := "http://example.org"]> {[ "dbkey" := "hg19" ]})
    = get_value_from_inputs {[ "dbkey" := "hg19" ]}
  /\ input_entries_exist_in_data_tables (scripted (always "ok") only_all_fasta)
       ["all_fasta"] (<["url" := "http://example.org"]> {[ "dbkey" := "hg19" ]}) start
     = input_entries_exist_in_data_tables (scripted (always "ok") only_all_fasta)
         ["all_fasta"] {[ "dbkey" := "hg19" ]} start.
Proof.
  apply (other_keys_do_not_matter (scripted (always "ok") only_all_fasta)
           ["all_fasta"] {[ "dbkey" := "hg19" ]} "url" "http://example.org" start).
  simpl. intros [H|[H|[H|[H|[H|[]]]]]]; discriminate H.
Defined.

Lemma check_answers_whether_entries_exist_witness :
  exists b m',
    input_entries_exist_in_data_tables (scripted (always "ok") only_all_fasta)
      ["all_fasta"] {[ "dbkey" := "hg19" ]} start = (Val b, m')
    /\ world m' = world start
    /\ (b = true <->
        (truthy (get_value_from_inputs {[ "dbkey" := "hg19" ]}) = true
         \/ truthy (get_name_from_inputs {[ "dbkey" := "hg19" ]}) = true)
        /\ forall name t, In name ["all_fasta"] -> only_all_fasta name = Some t ->
             candidate_in t "value" (get_value_from_inputs {[ "dbkey" := "hg19" ]})
             /\ candidate_in t "name" (get_name_from_inputs {[ "dbkey" := "hg19" ]})).
Proof.
  apply (check_answers_whether_entries_exist (scripted (always "ok") only_all_fasta)
           only_all_fasta ["all_fasta"] {[ "dbkey" := "hg19" ]} start).
  - apply scripted_serves.
  - intros name [<-|[]]. exists all_fasta. split; [reflexivity|].
    exact all_fasta_well_formed.
Defined.


Lemma every_item_skipped_or_dispatched_witness :
  exists n,
    dispatched (trace (snd (items_loop (scripted (always "ok") only_all_fasta)
        example_args (step "fetch" ["hg19"; "hg38"]) [PStr "hg19"; PStr "hg38"]
        [] 0 start)))
      = dispatched (trace start) ++ repeat (dm_id (step "fetch" ["hg19"; "hg38"])) n
    /\ length [job_number 0] = (length (@nil job) + n)%nat
    /\ (1 + n = 0 + length [PStr "hg19"; PStr "hg38"])%nat.
Proof.
  apply (every_item_skipped_or_dispatched (scripted (always "ok") only_all_fasta)
           example_args (step "fetch" ["hg19"; "hg38"]) [PStr "hg19"; PStr "hg38"]
           [] [job_number 0] 0%nat 1%nat start).
  reflexivity.
Defined.

Lemma overwrite_never_skips_witness :
  skipped_jobs {| finished_jobs := 1; failed_jobs := 0; skipped_jobs := 0 |} = 0%nat.
Proof.
  apply (overwrite_never_skips (scripted (always "ok") only_all_fasta) json_unused
           1%nat overwriting (steps [step "fetch" ["hg19"]]) start
           (snd (run_dm (scripted (always "ok") only_all_fasta) json_unused
                   1%nat overwriting (steps [step "fetch" ["hg19"]]) start))).
  - reflexivity.
  - vm_compute. reflexivity.
Defined.

Lemma step_without_jobs_ends_run_witness :
  run_dm (scripted (always "ok") only_all_fasta) json_unused 1 example_args
    (steps [step "fetch" ["hg19"]]) start
  = (Raise (UnboundLocalError "finished_jobs"),
     snd (items_loop (scripted (always "ok") only_all_fasta) example_args
            (step "fetch" ["hg19"]) [PStr "hg19"] [] 0 connected)).
Proof.
  apply (step_without_jobs_ends_run (scripted (always "ok") only_all_fasta)
           json_unused 1%nat example_args (steps [step "fetch" ["hg19"]])
           [] [] (step "fetch" ["hg19"]) no_totals (PList [PStr "hg19"])
           [PStr "hg19"] 1%nat start connected connected);
    reflexivity.
Defined.

Lemma totals_only_grow_witness :
  (number_skipped_jobs no_totals <= 1)%nat
  /\ (exists finished, [job_number 0] = all_finished_jobs no_totals ++ finished)
  /\ (exists failed, @nil job = all_failed_jobs no_totals ++ failed).
Proof.
  apply (totals_only_grow (scripted (always "ok") only_all_fasta) json_unused
           1%nat example_args (PStr "") [step "fetch" ["hg19"; "hg38"]] no_totals
           {| number_skipped_jobs := 1; all_failed_jobs := [];
              all_finished_jobs := [job_number 0] |}
           connected
           (snd (steps_loop (scripted (always "ok") only_all_fasta) json_unused
                   1%nat example_args (PStr "") [step "fetch" ["hg19"; "hg38"]]
                   no_totals connected))).
  vm_compute. reflexivity.
Defined.

Lemma summary_failed_within_finished_witness :
  (failed_jobs {| finished_jobs := 1; failed_jobs := 1; skipped_jobs := 0 |}
   <= finished_jobs {| finished_jobs := 1; failed_jobs := 1; skipped_jobs := 0 |})%nat
  /\ (ignore_errors ignoring_errors = false ->
      failed_jobs {| finished_jobs := 1; failed_jobs := 1; skipped_jobs := 0 |} = 0%nat).
Proof.
  apply (summary_failed_within_finished (scripted (always "error") only_all_fasta)
           json_unused 1%nat ignoring_errors (steps [step "fetch" ["hg38"]]) start
           (snd (run_dm (scripted (always "error") only_all_fasta) json_unused
                   1%nat ignoring_errors (steps [step "fetch" ["hg38"]]) start))).
  vm_compute. reflexivity.
Defined.

Lemma reported_failure_aborts_run_witness :
  run_dm (scripted (always "error") only_all_fasta) json_unused 1 example_args
    (steps [step "fetch" ["hg38"]]) start
  = (Raise (Exception abort_message),
     snd (wait (scripted (always "error") only_all_fasta) 1 [job_number 0]
            (snd (items_loop (scripted (always "error") only_all_fasta)
                    example_args (step "fetch" ["hg38"]) [PStr "hg38"] [] 0
                    connected)))).
Proof.
  apply (reported_failure_aborts_run (scripted (always "error") only_all_fasta)
           json_unused 1%nat example_args (steps [step "fetch" ["hg38"]])
           [] [] (step "fetch" ["hg38"]) no_totals (PList [PStr "hg38"])
           [PStr "hg38"] [job_number 0] [job_number 0] [job_number 0] 0%nat
           start connected connected
           (snd (items_loop (scripted (always "error") only_all_fasta)
                   example_args (step "fetch" ["hg38"]) [PStr "hg38"] [] 0
                   connected)));
    try reflexivity.
  discriminate.
Defined.

Lemma reported_failure_ignored_witness :
  run_step (scripted (always "error") only_all_fasta) json_unused 1
    ignoring_errors (PStr "") (step "fetch" ["hg38"]) no_totals connected
  = (Val {| number_skipped_jobs := 0;
            all_failed_jobs := all_failed_jobs no_totals ++ [job_number 0];
            all_finished_jobs := all_finished_jobs no_totals ++ [job_number 0] |},
     {| world := world (snd (wait (scripted (always "error") only_all_fasta) 1
                  [job_number 0]
                  (snd (items_loop (scripted (always "error") only_all_fasta)
                          ignoring_errors (step "fetch" ["hg38"]) [PStr "hg38"]
                          [] 0 connected))));
        trace := trace (snd (wait (scripted (always "error") only_all_fasta) 1
                  [job_number 0]
                  (snd (items_loop (scripted (always "error") only_all_fasta)
                          ignoring_errors (step "fetch" ["hg38"]) [PStr "hg38"]
                          [] 0 connected))))
                 ++ [Log ERROR NotAllSuccessfulIgnoring] |}).
Proof.
  apply (reported_failure_ignored (scripted (always "error") only_all_fasta)
           json_unused 1%nat ignoring_errors (PStr "") (step "fetch" ["hg38"])
           no_totals (PList [PStr "hg38"]) [PStr "hg38"] [job_number 0]
           [job_number 0] [job_number 0] 0%nat connected
           (snd (items_loop (scripted (always "error") only_all_fasta)
                   ignoring_errors (step "fetch" ["hg38"]) [PStr "hg38"] [] 0
                   connected)));
    try reflexivity.
  discriminate.
Defined.

Lemma item_reference_is_replaced_witness :
  resolve ("" +:+ "{{item}}" +:+ "_index") {[ "item" := PStr "hg19" ]}
    = Val ("" +:+ "hg19" +:+ "_index")
  /\ resolve ("" +:+ "{{ item }}" +:+ "_index") {[ "item" := PStr "hg19" ]}
    = Val ("" +:+ "hg19" +:+ "_index").
Proof.
  apply (item_reference_is_replaced "" "_index" "hg19"); reflexivity.
Defined.

Lemma plain_params_pass_unchanged_witness :
  build_inputs [[("dbkey", "hg19")]; [("dbkey", "hg38"); ("name", "Human")]]
    (PStr "mm10") ∅
  = Val (fold_left update_with
           [[("dbkey", "hg19")]; [("dbkey", "hg38"); ("name", "Human")]] ∅).
Proof.
  apply (plain_params_pass_unchanged
           [[("dbkey", "hg19")]; [("dbkey", "hg38"); ("name", "Human")]]
           (PStr "mm10") ∅).
  constructor; [exists "dbkey", "hg19", []; split; reflexivity|].
  constructor; [exists "dbkey", "hg38", [("name", "Human")]; split; reflexivity|].
  constructor.
Defined.

Lemma parse_items_without_references_witness :
  parse_items json_stub (PList [PStr "hg19"]) (PList [PStr "hg19"; PStr "hg38"])
  = of_sum (json_loads json_stub
              (py_strip dquote (json_dumps json_stub (PList [PStr "hg19"])))).
Proof.
  apply (parse_items_without_references json_stub (PList [PStr "hg19"])
           (PList [PStr "hg19"; PStr "hg38"])); reflexivity.
Defined.

Lemma check_stops_at_first_miss_witness :
  input_entries_exist_in_data_tables (scripted (always "ok") only_all_fasta)
    ("all_fasta" :: ["no_such_table"]) {[ "dbkey" := "hg38" ]} start
  = (Val false,
     {| world := (0, 0)%nat; trace := trace start ++ [ShowDataTable "all_fasta"] |}).
Proof.
  apply (check_stops_at_first_miss (scripted (always "ok") only_all_fasta)
           "all_fasta" ["no_such_table"] {[ "dbkey" := "hg38" ]} "hg38" start
           all_fasta (0, 0)%nat 0%nat).
  - reflexivity.
  - discriminate.
  - reflexivity.
  - split; [reflexivity|]. intros j Hj. lia.
  - repeat constructor.
  - intros (row & Hin & Hrow). simpl in Hin. destruct Hin as [<-|[]].
    discriminate Hrow.
Defined.
